(** * Activity lifecycle and scheduler: a shallow embedding

    Embedding of [src/core/activity.py] and [src/core/scheduler.py], and
    the properties of the scheduling core stated about them.

    Conventions of the embedding.
    - A Python [int] is a [Z].  A naive [datetime] is a [Z]: microseconds
      since midnight of a fixed day 0; a [timedelta] is a [Z] of
      microseconds; a [date] is a day number and a [datetime.time] the
      microseconds since midnight.  The year range of [datetime] is not
      modelled.
    - The wall clock is a field of the state.  It is advanced by the three
      phase calls of an activity (by the time they take) and by the sleep
      of the scheduler, and it is read by [now]; it never goes backwards.
    - The three abstract methods of an activity are given per call as a
      [PhaseOutcome]: what the call returns, or that it raises, and how long
      it runs.  They do not write the bookkeeping fields of the activity,
      and an activity owns its [ActivityConfig].
    - A Python exception in flight (an instance of [Exception]) is the
      result [Raise]; [try]/[except Exception] and [try]/[finally] are the
      combinators [try_except] and [try_finally].
    - Callbacks are observers that do not raise: an invocation is recorded
      in the event trace, and so is every assignment to [self.state].
      Calls of the logger are left out.
    - An object is a reference into a heap; the scheduler's list and
      dictionary hold references, so that two names for one object see the
      same fields.
    - A thread started by [run_activity_now] is recorded as pending and run
      as a whole when it is taken up; finer interleavings are not modelled.
    - Execution times are exact rationals (seconds) where the source has
      binary floats.
    - Strings are ASCII: every character is below 128.  [int] converts at
      most 4300 digits, its default limit, and a [datetime.time] is always
      true (Python 3.11). *)

From Stdlib Require Import ZArith QArith String Ascii List Lia Bool.
From stdpp Require Import base functions gmap strings list sorting.

Local Open Scope Z_scope.

(** ** State and exception monad *)

Inductive Res (A : Type) : Type :=
| Ok (a : A)
| Raise.
Arguments Ok {A} a.
Arguments Raise {A}.

Definition M (S A : Type) : Type := S -> Res A * S.

Definition ret {S A : Type} (a : A) : M S A := fun s => (Ok a, s).

Definition bind {S A B : Type} (m : M S A) (k : A -> M S B) : M S B :=
  fun s => match m s with
           | (Ok a, s') => k a s'
           | (Raise, s') => (Raise, s')
           end.

Definition raise {S A : Type} : M S A := fun s => (Raise, s).

Definition get {S : Type} : M S S := fun s => (Ok s, s).

Definition modify {S : Type} (f : S -> S) : M S unit := fun s => (Ok tt, f s).

(** [try: body except Exception: handler] *)
Definition try_except {S A : Type} (body handler : M S A) : M S A :=
  fun s => match body s with
           | (Ok a, s') => (Ok a, s')
           | (Raise, s') => handler s'
           end.

(** [try: body finally: fin]; the value or the exception of [body] is kept
    unless [fin] raises itself. *)
Definition try_finally {S A : Type} (body : M S A) (fin : M S unit) : M S A :=
  fun s => match body s with
           | (r, s') => match fin s' with
                        | (Ok _, s'') => (r, s'')
                        | (Raise, s'') => (Raise, s'')
                        end
           end.

Declare Scope py_scope.
Delimit Scope py_scope with py.
Notation "x <- m ;; k" := (bind m (fun x => k))
  (at level 100, m at next level, right associativity) : py_scope.
Notation "m ;;; k" := (bind m (fun _ => k))
  (at level 100, right associativity) : py_scope.
Notation "'when_' b 'then_' m" := (if b then m else ret tt)
  (at level 100, right associativity) : py_scope.

(** ** Dates and times *)

Definition MICROSECOND : Z := 1.
Definition SECOND : Z := 1000000.
Definition MINUTE : Z := 60 * SECOND.
Definition HOUR : Z := 60 * MINUTE.
Definition DAY : Z := 24 * HOUR.

(** [timedelta(hours=h, minutes=m)] *)
Definition timedelta (hours minutes : Z) : Z := hours * HOUR + minutes * MINUTE.

(** [dt.date()], [dt.time()] and [datetime.combine(d, t)] *)
Definition date_of (dt : Z) : Z := dt / DAY.
Definition time_of (dt : Z) : Z := dt mod DAY.
Definition combine (d t : Z) : Z := d * DAY + t.

(** [timedelta.total_seconds()] *)
Definition total_seconds (td : Z) : Q := Qmake td 1000000.

(** ** Parsing of "HH:MM" *)

(** The blanks [int] skips at both ends of its argument: the space and
    the controls 9 to 13 (tab, line feed, vertical tab, form feed, carriage
    return).  The separators 28 to 31 are blanks for [str.strip] but not for
    [int]. *)
Definition is_space (c : ascii) : bool :=
  let n := nat_of_ascii c in
  ((n =? 32) || ((9 <=? n) && (n <=? 13)))%nat.

Definition digit_of (c : ascii) : option Z :=
  let n := nat_of_ascii c in
  if ((48 <=? n) && (n <=? 57))%nat then Some (Z.of_nat n - 48) else None.

Definition underscore : ascii := "_"%char.

(** Digits of a decimal literal after its first digit: a single underscore
    is allowed between two digits. *)
Fixpoint digits_from (acc : Z) (cs : list ascii) : option Z :=
  match cs with
  | [] => Some acc
  | c :: cs' =>
      match digit_of c with
      | Some d => digits_from (10 * acc + d) cs'
      | None =>
          if Ascii.eqb c underscore then
            match cs' with
            | c' :: cs'' =>
                match digit_of c' with
                | Some d => digits_from (10 * acc + d) cs''
                | None => None
                end
            | [] => None
            end
          else None
      end
  end.

(** The most digits [int] converts, [sys.get_int_max_str_digits()] as it
    is set by default; underscores are not counted, leading zeros are. *)
Definition int_max_str_digits : Z := 4300.

Definition count_digits (cs : list ascii) : Z :=
  Z.of_nat (length (List.filter (fun c => bool_decide (is_Some (digit_of c))) cs)).

Definition unsigned_literal (cs : list ascii) : option Z :=
  if int_max_str_digits <? count_digits cs then None
  else
    match cs with
    | c :: cs' => match digit_of c with
                  | Some d => digits_from d cs'
                  | None => None
                  end
    | [] => None
    end.

Fixpoint lstrip (cs : list ascii) : list ascii :=
  match cs with
  | c :: cs' => if is_space c then lstrip cs' else cs
  | [] => []
  end.

Definition strip (cs : list ascii) : list ascii :=
  rev (lstrip (rev (lstrip cs))).

(** [int(s)] for a string: [None] is [ValueError]. *)
Definition py_int (cs : list ascii) : option Z :=
  match strip cs with
  | "+"%char :: cs' => unsigned_literal cs'
  | "-"%char :: cs' => option_map Z.opp (unsigned_literal cs')
  | cs' => unsigned_literal cs'
  end.

(** [s.split(':')] *)
Fixpoint split_colon (cur : list ascii) (cs : list ascii) : list (list ascii) :=
  match cs with
  | [] => [rev cur]
  | c :: cs' =>
      if Ascii.eqb c ":"%char then rev cur :: split_colon [] cs'
      else split_colon (c :: cur) cs'
  end.

(** [dt_time(hour, minute)]: [None] is [ValueError]. *)
Definition dt_time (hour minute : Z) : option Z :=
  if (0 <=? hour) && (hour <? 24) && (0 <=? minute) && (minute <? 60)
  then Some (hour * HOUR + minute * MINUTE) else None.

(** [hour, minute = map(int, s.split(':'))] followed by
    [dt_time(hour, minute)]: [None] when any step raises. *)
Definition parse_time (s : string) : option Z :=
  match split_colon [] (list_ascii_of_string s) with
  | [h; m] =>
      match py_int h, py_int m with
      | Some hour, Some minute => dt_time hour minute
      | _, _ => None
      end
  | _ => None
  end.

(** Truth value of an [Optional[str]]: [None] and the empty string are
    false. *)
Definition truthy (s : option string) : bool :=
  match s with
  | Some EmptyString => false
  | Some _ => true
  | None => false
  end.

(** ** [activity.py] *)

Module activity.

(** [class ActivityState(Enum)] *)
Inductive ActivityState : Type :=
| IDLE | SCHEDULED | CHECKING | READY | EXECUTING | VERIFYING
| SUCCESS | FAILED | DISABLED.

#[global] Instance ActivityState_eq_dec : EqDecision ActivityState.
Proof. solve_decision. Defined.

(** [@dataclass class ActivityConfig]; the opaque [parameters] dictionary
    is read by no method of the base class and is left out. *)
Record ActivityConfig : Type := mkActivityConfig {
  enabled : bool;
  interval_hours : Z;
  interval_minutes : Z;
  start_time : option string;
  end_time : option string;
  priority : Z;
  max_retries : Z;
  retry_delay_minutes : Z;
  max_execution_seconds : Z
}.

(** The fields of an [Activity] instance.  [on_state_change] and
    [on_execution_complete] say whether a callback is installed. *)
Record Activity : Type := mkActivity {
  name : string;
  config : ActivityConfig;
  state : ActivityState;
  last_execution : option Z;
  next_execution : option Z;
  retry_count : Z;
  total_executions : Z;
  successful_executions : Z;
  failed_executions : Z;
  total_execution_time_seconds : Q;
  average_execution_time_seconds : Q;
  on_state_change : bool;
  on_execution_complete : bool
}.

(** [ActivityConfig()] with the defaults of the dataclass. *)
Definition default_config : ActivityConfig :=
  mkActivityConfig true 0 30 None None 5 3 5 300.

(** [Activity.__init__] *)
Definition __init__ (name : string) (config : ActivityConfig) : Activity :=
  mkActivity name config
    (if negb (enabled config) then IDLE else SCHEDULED)
    None None 0 0 0 0 0%Q 0%Q false false.

(** What an observer of one activity can see. *)
Inductive Event : Type :=
| StateSet (old_state new_state : ActivityState)
    (* the assignment [self.state = new_state] *)
| OnStateChange (old_state new_state : ActivityState)
    (* [self.on_state_change(self, old_state, new_state)] *)
| OnExecutionComplete (success : bool).
    (* [self.on_execution_complete(self, success=...)] *)

#[global] Instance Event_eq_dec : EqDecision Event.
Proof. solve_decision. Defined.

(** One call of an abstract method: [returns = None] when it raises. *)
Record PhaseOutcome : Type := mkPhaseOutcome {
  returns : option bool;
  takes : N
}.

Record Phases : Type := mkPhases {
  check_prerequisites : PhaseOutcome;
  execute : PhaseOutcome;
  verify_completion : PhaseOutcome
}.

(** The state an activity method runs in. *)
Record Env : Type := mkEnv {
  self : Activity;
  clock : Z;
  events : list Event
}.

Section setters.
Definition with_self (f : Activity -> Activity) (e : Env) : Env :=
  mkEnv (f (self e)) (clock e) (events e).
Definition emit (ev : Event) (e : Env) : Env :=
  mkEnv (self e) (clock e) (events e ++ [ev]).
Definition advance (d : N) (e : Env) : Env :=
  mkEnv (self e) (clock e + Z.of_N d) (events e).

Definition set_enabled (b : bool) (c : ActivityConfig) : ActivityConfig :=
  mkActivityConfig b (interval_hours c) (interval_minutes c) (start_time c)
    (end_time c) (priority c) (max_retries c) (retry_delay_minutes c)
    (max_execution_seconds c).

Definition set_config (c : ActivityConfig) (a : Activity) : Activity :=
  mkActivity (name a) c (state a) (last_execution a) (next_execution a)
    (retry_count a) (total_executions a) (successful_executions a)
    (failed_executions a) (total_execution_time_seconds a)
    (average_execution_time_seconds a) (on_state_change a)
    (on_execution_complete a).
Definition set_state (s : ActivityState) (a : Activity) : Activity :=
  mkActivity (name a) (config a) s (last_execution a) (next_execution a)
    (retry_count a) (total_executions a) (successful_executions a)
    (failed_executions a) (total_execution_time_seconds a)
    (average_execution_time_seconds a) (on_state_change a)
    (on_execution_complete a).
Definition set_last_execution (t : option Z) (a : Activity) : Activity :=
  mkActivity (name a) (config a) (state a) t (next_execution a)
    (retry_count a) (total_executions a) (successful_executions a)
    (failed_executions a) (total_execution_time_seconds a)
    (average_execution_time_seconds a) (on_state_change a)
    (on_execution_complete a).
Definition set_next_execution (t : option Z) (a : Activity) : Activity :=
  mkActivity (name a) (config a) (state a) (last_execution a) t
    (retry_count a) (total_executions a) (successful_executions a)
    (failed_executions a) (total_execution_time_seconds a)
    (average_execution_time_seconds a) (on_state_change a)
    (on_execution_complete a).
Definition set_retry_count (n : Z) (a : Activity) : Activity :=
  mkActivity (name a) (config a) (state a) (last_execution a)
    (next_execution a) n (total_executions a) (successful_executions a)
    (failed_executions a) (total_execution_time_seconds a)
    (average_execution_time_seconds a) (on_state_change a)
    (on_execution_complete a).
Definition set_total_executions (n : Z) (a : Activity) : Activity :=
  mkActivity (name a) (config a) (state a) (last_execution a)
    (next_execution a) (retry_count a) n (successful_executions a)
    (failed_executions a) (total_execution_time_seconds a)
    (average_execution_time_seconds a) (on_state_change a)
    (on_execution_complete a).
Definition set_successful_executions (n : Z) (a : Activity) : Activity :=
  mkActivity (name a) (config a) (state a) (last_execution a)
    (next_execution a) (retry_count a) (total_executions a) n
    (failed_executions a) (total_execution_time_seconds a)
    (average_execution_time_seconds a) (on_state_change a)
    (on_execution_complete a).
Definition set_failed_executions (n : Z) (a : Activity) : Activity :=
  mkActivity (name a) (config a) (state a) (last_execution a)
    (next_execution a) (retry_count a) (total_executions a)
    (successful_executions a) n (total_execution_time_seconds a)
    (average_execution_time_seconds a) (on_state_change a)
    (on_execution_complete a).
Definition set_total_execution_time_seconds (q : Q) (a : Activity) : Activity :=
  mkActivity (name a) (config a) (state a) (last_execution a)
    (next_execution a) (retry_count a) (total_executions a)
    (successful_executions a) (failed_executions a) q
    (average_execution_time_seconds a) (on_state_change a)
    (on_execution_complete a).
Definition set_average_execution_time_seconds (q : Q) (a : Activity) : Activity :=
  mkActivity (name a) (config a) (state a) (last_execution a)
    (next_execution a) (retry_count a) (total_executions a)
    (successful_executions a) (failed_executions a)
    (total_execution_time_seconds a) q (on_state_change a)
    (on_execution_complete a).
Definition set_callbacks (sc ec : bool) (a : Activity) : Activity :=
  mkActivity (name a) (config a) (state a) (last_execution a)
    (next_execution a) (retry_count a) (total_executions a)
    (successful_executions a) (failed_executions a)
    (total_execution_time_seconds a) (average_execution_time_seconds a)
    sc ec.
End setters.

Local Open Scope py_scope.

(** [self], [datetime.now()], and an assignment to a field of [self] *)
Definition this : M Env Activity := fun e => (Ok (self e), e).
Definition now : M Env Z := fun e => (Ok (clock e), e).
Definition assign (f : Activity -> Activity) : M Env unit := modify (with_self f).

(** [func()] for one of the three abstract methods *)
Definition call (p : PhaseOutcome) : M Env bool :=
  fun e => (match returns p with Some b => Ok b | None => Raise end,
            advance (takes p) e).

(** [if callback: callback(...)] for a callback that records [ev] *)
Definition notify (callback : bool) (ev : Event) : M Env unit :=
  if callback then modify (emit ev) else ret tt.

(** [_change_state] *)
Definition _change_state (new_state : ActivityState) : M Env unit :=
  a <- this;;
  let old_state := state a in
  assign (set_state new_state);;;
  modify (emit (StateSet old_state new_state));;;
  notify (on_state_change a && negb (bool_decide (old_state = new_state)))
    (OnStateChange old_state new_state).

(** [_run_with_timeout]: the timeout only decides whether a warning is
    logged. *)
Definition _run_with_timeout (func : PhaseOutcome) (timeout_seconds : Z)
  : M Env bool :=
  try_except
    (result <- call func;;
     ret result)
    (ret false).

(** The two [if self.config.X:] blocks that parse the window; a malformed
    string raises. *)
Definition parse_bound (s : option string) : M Env (option Z) :=
  if truthy s then
    match s with
    | Some str => match parse_time str with
                  | Some t => ret (Some t)
                  | None => raise
                  end
    | None => ret None
    end
  else ret None.

(** [_adjust_for_time_window] *)
Definition _adjust_for_time_window (next_time : Z) : M Env Z :=
  a <- this;;
  let cfg := config a in
  if negb (truthy (start_time cfg) || truthy (end_time cfg)) then ret next_time
  else
    try_except
      (start <- parse_bound (start_time cfg);;
       end_ <- parse_bound (end_time cfg);;
       let next_time_of_day := time_of next_time in
       match start with
       | Some st =>
           if next_time_of_day <? st then ret (combine (date_of next_time) st)
           else
             match end_ with
             | Some en =>
                 if next_time_of_day >? en
                 then ret (combine (date_of next_time + 1) st)
                 else ret next_time
             | None => ret next_time
             end
       | None =>
           (* [elif end_time and ...: if start_time:] with no start time *)
           ret next_time
       end)
      (ret next_time).

(** [get_next_execution_time] *)
Definition get_next_execution_time : M Env Z :=
  a <- this;;
  match last_execution a with
  | None => now
  | Some last =>
      let interval :=
        timedelta (interval_hours (config a)) (interval_minutes (config a)) in
      let next_time := last + interval in
      if truthy (start_time (config a)) || truthy (end_time (config a))
      then _adjust_for_time_window next_time
      else ret next_time
  end.

(** [_handle_success] *)
Definition _handle_success (execution_time : Q) : M Env unit :=
  a <- this;; assign (set_total_executions (total_executions a + 1));;;
  a <- this;; assign (set_successful_executions (successful_executions a + 1));;;
  assign (set_retry_count 0);;;
  t <- now;; assign (set_last_execution (Some t));;;
  n <- get_next_execution_time;; assign (set_next_execution (Some n));;;
  a <- this;;
  assign (set_total_execution_time_seconds
            (total_execution_time_seconds a + execution_time)%Q);;;
  a <- this;;
  (if total_executions a =? 0 then raise (* ZeroDivisionError *)
   else assign (set_average_execution_time_seconds
                  (total_execution_time_seconds a
                   / inject_Z (total_executions a))%Q));;;
  a <- this;;
  notify (on_execution_complete a) (OnExecutionComplete true).

(** [_handle_failure] *)
Definition _handle_failure : M Env unit :=
  a <- this;; assign (set_total_executions (total_executions a + 1));;;
  a <- this;; assign (set_failed_executions (failed_executions a + 1));;;
  a <- this;; assign (set_retry_count (retry_count a + 1));;;
  a <- this;;
  (if retry_count a >=? max_retries (config a) then
     _change_state DISABLED;;;
     a <- this;; assign (set_config (set_enabled false (config a)))
   else
     t <- now;;
     assign (set_next_execution
               (Some (t + timedelta 0 (retry_delay_minutes (config a))))));;;
  a <- this;;
  notify (on_execution_complete a) (OnExecutionComplete false).

(** [run] *)
Definition run (ph : Phases) : M Env bool :=
  execution_start <- now;;
  try_finally
    (try_except
       (_change_state CHECKING;;;
        (* Step 1: check prerequisites *)
        ok <- _run_with_timeout (check_prerequisites ph) 30;;
        if negb ok then
          _change_state SCHEDULED;;;
          ret false
        else
          (* Step 2: execute *)
          _change_state READY;;;
          _change_state EXECUTING;;;
          a <- this;;
          execution_success <-
            _run_with_timeout (execute ph) (max_execution_seconds (config a));;
          if negb execution_success then
            _handle_failure;;;
            ret false
          else
            (* Step 3: verify *)
            _change_state VERIFYING;;;
            verification_success <-
              _run_with_timeout (verify_completion ph) 30;;
            if negb verification_success then
              _handle_failure;;;
              ret false
            else
              _change_state SUCCESS;;;
              t <- now;;
              let execution_time := total_seconds (t - execution_start) in
              _handle_success execution_time;;;
              ret true)
       (_handle_failure;;;
        ret false))
    (a <- this;;
     when_ negb (bool_decide (state a = DISABLED))
     then_ _change_state SCHEDULED).

(** [is_due] *)
Definition is_due : M Env bool :=
  a <- this;;
  if negb (enabled (config a)) then ret false
  else if bool_decide (state a = DISABLED) then ret false
  else
    (match next_execution a with
     | None => n <- get_next_execution_time;;
               assign (set_next_execution (Some n))
     | Some _ => ret tt
     end);;;
    a <- this;;
    t <- now;;
    match next_execution a with
    | Some n => ret (t >=? n)
    | None => raise (* [datetime >= None] is a TypeError; never reached *)
    end.

(** [enable], [disable], [reset_statistics], [force_run_now] *)
Definition enable : M Env unit :=
  a <- this;; assign (set_config (set_enabled true (config a)));;;
  assign (set_retry_count 0);;;
  _change_state SCHEDULED.

Definition disable : M Env unit :=
  a <- this;; assign (set_config (set_enabled false (config a)));;;
  _change_state IDLE.

Definition reset_statistics : M Env unit :=
  assign (set_total_executions 0);;;
  assign (set_successful_executions 0);;;
  assign (set_failed_executions 0);;;
  assign (set_total_execution_time_seconds 0%Q);;;
  assign (set_average_execution_time_seconds 0%Q);;;
  assign (set_retry_count 0).

Definition force_run_now : M Env unit :=
  t <- now;; assign (set_next_execution (Some t)).

(** *** Functional reading of the methods

    What each method returns and the state it leaves, as plain functions.
    The lemmas [change_state_eq] to [run_eq] and [is_due_eq] prove that the
    methods compute exactly these. *)

(** A phase call counts as true only when it returns true. *)
Definition truth (p : PhaseOutcome) : bool :=
  match returns p with Some true => true | _ => false end.

(** The call of [on_state_change] that [_change_state] makes, if any. *)
Definition notified (old_state new_state : ActivityState) (a : Activity) : list Event :=
  if on_state_change a && negb (bool_decide (old_state = new_state))
  then [OnStateChange old_state new_state] else [].

(** After [_change_state(s)]. *)
Definition changed (s : ActivityState) (e : Env) : Env :=
  mkEnv (set_state s (self e)) (clock e)
    (events e ++ StateSet (state (self e)) s :: notified (state (self e)) s (self e)).

(** One bound of the window: [Some None] when it is not set, [Some (Some t)]
    when it is a well-formed HH:MM, [None] when parsing it raises. *)
Definition bound (s : option string) : option (option Z) :=
  if truthy s then
    match s with
    | Some str => option_map Some (parse_time str)
    | None => Some None
    end
  else Some None.

(** What [_adjust_for_time_window] returns. *)
Definition window_adjust (cfg : ActivityConfig) (t : Z) : Z :=
  match bound (start_time cfg), bound (end_time cfg) with
  | Some (Some st), Some en =>
      if time_of t <? st then combine (date_of t) st
      else match en with
           | Some en => if time_of t >? en then combine (date_of t + 1) st else t
           | None => t
           end
  | _, _ => t
  end.

(** What [get_next_execution_time] returns at time [clk]. *)
Definition next_time (clk : Z) (a : Activity) : Z :=
  match last_execution a with
  | None => clk
  | Some last =>
      let t := last + timedelta (interval_hours (config a)) (interval_minutes (config a)) in
      if truthy (start_time (config a)) || truthy (end_time (config a))
      then window_adjust (config a) t else t
  end.

(** After the call of [on_execution_complete], if one is installed. *)
Definition completed (success : bool) (e : Env) : Env :=
  mkEnv (self e) (clock e)
    (events e ++ if on_execution_complete (self e) then [OnExecutionComplete success] else []).

(** The activity after [_handle_failure] at time [clk]. *)
Definition failure (a : Activity) (clk : Z) : Activity :=
  let a1 := set_retry_count (retry_count a + 1)
              (set_failed_executions (failed_executions a + 1)
                 (set_total_executions (total_executions a + 1) a)) in
  if retry_count a + 1 >=? max_retries (config a)
  then set_config (set_enabled false (config a)) (set_state DISABLED a1)
  else set_next_execution (Some (clk + timedelta 0 (retry_delay_minutes (config a)))) a1.

(** After [_handle_failure]. *)
Definition failed (e : Env) : Env :=
  completed false
    (mkEnv (failure (self e) (clock e)) (clock e)
       (events e ++
          if retry_count (self e) + 1 >=? max_retries (config (self e))
          then StateSet (state (self e)) DISABLED :: notified (state (self e)) DISABLED (self e)
          else [])).

(** The activity after [_handle_success], up to the division and after it. *)
Definition success_partial (execution_time : Q) (a : Activity) (clk : Z) : Activity :=
  let a1 := set_last_execution (Some clk)
              (set_retry_count 0
                 (set_successful_executions (successful_executions a + 1)
                    (set_total_executions (total_executions a + 1) a))) in
  let a2 := set_next_execution (Some (next_time clk a1)) a1 in
  set_total_execution_time_seconds
    (total_execution_time_seconds a + execution_time)%Q a2.

Definition success (execution_time : Q) (a : Activity) (clk : Z) : Activity :=
  let a3 := success_partial execution_time a clk in
  set_average_execution_time_seconds
    (total_execution_time_seconds a3 / inject_Z (total_executions a3))%Q a3.

(** After the [finally] block of [run]. *)
Definition finally_ (e : Env) : Env :=
  if bool_decide (state (self e) = DISABLED) then e else changed SCHEDULED e.

(** After each of the three phase calls of [run]. *)
Definition after_check (ph : Phases) (e : Env) : Env :=
  advance (takes (check_prerequisites ph)) (changed CHECKING e).

Definition after_execute (ph : Phases) (e : Env) : Env :=
  advance (takes (execute ph)) (changed EXECUTING (changed READY (after_check ph e))).

Definition after_verify (ph : Phases) (e : Env) : Env :=
  advance (takes (verify_completion ph)) (changed VERIFYING (after_execute ph e)).

(** What the [try]/[except] of [run] returns and leaves; the fourth case is
    a [ZeroDivisionError] in [_handle_success], caught by [except]. *)
Definition run_body (ph : Phases) (e : Env) : bool * Env :=
  if negb (truth (check_prerequisites ph)) then
    (false, changed SCHEDULED (after_check ph e))
  else if negb (truth (execute ph)) then
    (false, failed (after_execute ph e))
  else if negb (truth (verify_completion ph)) then
    (false, failed (after_verify ph e))
  else
    let e4 := changed SUCCESS (after_verify ph e) in
    let q := total_seconds (clock e4 - clock e) in
    if total_executions (self e4) + 1 =? 0 then
      (false, failed (mkEnv (success_partial q (self e4) (clock e4))
                        (clock e4) (events e4)))
    else
      (true, completed true (mkEnv (success q (self e4) (clock e4))
                               (clock e4) (events e4))).

(** What [run] returns and leaves. *)
Definition run_result (ph : Phases) (e : Env) : bool * Env :=
  (fst (run_body ph e), finally_ (snd (run_body ph e))).

(** What [is_due] returns at time [clk], and the activity it leaves. *)
Definition due (clk : Z) (a : Activity) : bool :=
  enabled (config a) && negb (bool_decide (state a = DISABLED))
  && (clk >=? match next_execution a with
              | Some n => n
              | None => next_time clk a
              end).

Definition polled (clk : Z) (a : Activity) : Activity :=
  if enabled (config a) && negb (bool_decide (state a = DISABLED)) then
    match next_execution a with
    | Some _ => a
    | None => set_next_execution (Some (next_time clk a)) a
    end
  else a.

(** *** What the properties speak of *)

(** The same phase, returning false where it raised. *)
Definition as_false (p : PhaseOutcome) : PhaseOutcome :=
  mkPhaseOutcome (match returns p with None => Some false | r => r end) (takes p).

(** The states assigned to [self.state] in a trace, in order, and the
    calls of [on_execution_complete]. *)
Definition assigned (tr : list Event) : list ActivityState :=
  omap (fun ev => match ev with StateSet _ s => Some s | _ => None end) tr.

Definition completions (tr : list Event) : list bool :=
  omap (fun ev => match ev with OnExecutionComplete b => Some b | _ => None end) tr.

(** A failed run: the prerequisites are met and [execute] or
    [verify_completion] returns false or raises.  A successful run: all
    three return true. *)
Definition fails (ph : Phases) : bool :=
  truth (check_prerequisites ph)
  && negb (truth (execute ph) && truth (verify_completion ph)).

Definition succeeds (ph : Phases) : bool :=
  truth (check_prerequisites ph) && truth (execute ph)
  && truth (verify_completion ph).

(** The activity is left alone for [fst x] microseconds and then run with
    the phases [snd x]; [runs] does so for each element of a list. *)
Definition run_after (x : N * Phases) (e : Env) : Env :=
  snd (run (snd x) (advance (fst x) e)).

Definition runs (l : list (N * Phases)) (e : Env) : Env :=
  foldl (fun e x => run_after x e) e l.

(** A disabled activity is not enabled. *)
Definition consistent (a : Activity) : Prop :=
  state a = DISABLED -> enabled (config a) = false.

(** *** Scenarios *)

(** Task A of the example of the specification: priority 1, every 10
    minutes, 2 retries, 5 minutes apart. *)
Definition a0 : Activity :=
  __init__ "Alliance Help" (mkActivityConfig true 0 10 None None 1 2 5 300).

Definition ok_phases : Phases :=
  mkPhases (mkPhaseOutcome (Some true) 1000) (mkPhaseOutcome (Some true) 1000)
    (mkPhaseOutcome (Some true) 1000).

Definition skip_phases : Phases :=
  mkPhases (mkPhaseOutcome (Some false) 1000) (mkPhaseOutcome (Some true) 1000)
    (mkPhaseOutcome (Some true) 1000).

Definition fail_phases : Phases :=
  mkPhases (mkPhaseOutcome (Some true) 0) (mkPhaseOutcome (Some false) 0)
    (mkPhaseOutcome (Some true) 0).

(** A run at [t = 0] where [execute] returns false, and one started five
    minutes later where it raises. *)
Definition l2 : list (N * Phases) :=
  [(0%N, mkPhases (mkPhaseOutcome (Some true) 1000) (mkPhaseOutcome (Some false) 1000)
           (mkPhaseOutcome (Some true) 1000));
   (299998000%N, mkPhases (mkPhaseOutcome (Some true) 1000) (mkPhaseOutcome None 1000)
           (mkPhaseOutcome (Some true) 1000))].

(** 05:00 on day 0, a window from 06:00 to 23:00, every 30 minutes. *)
Definition windowed : Env :=
  mkEnv (__init__ "Daily Login"
           (mkActivityConfig true 0 30 (Some "06:00"%string) (Some "23:00"%string) 5 3 5 300))
    (5 * HOUR) [].


(** 12:00 on day 0, a window over midnight, from 22:00 to 06:00, every 30
    minutes. *)
Definition overnight : Env :=
  mkEnv (__init__ "Shield Monitor"
           (mkActivityConfig true 0 30 (Some "22:00"%string) (Some "06:00"%string) 5 3 5 300))
    (12 * HOUR) [].


End activity.

(** ** [scheduler.py] *)

Module scheduler.

(** An [Activity] object is known by its reference; two references are the
    same object exactly when they are equal ([Activity] defines no
    [__eq__], so [in] and [list.remove] compare by identity). *)
Abbreviation ref := nat.

(** The fields of an [ActivityScheduler]; [on_activity_start] and
    [on_activity_complete] say whether a callback is installed. *)
Record ActivityScheduler : Type := mkActivityScheduler {
  _activities : list ref;
  _activities_by_id : gmap string ref;
  running : bool;
  _current_activity : option ref;
  total_executions : Z;
  successful_executions : Z;
  failed_executions : Z;
  on_activity_start : bool;
  on_activity_complete : bool;
  check_interval_seconds : Z
}.

(** [ActivityScheduler.__init__] *)
Definition __init__ : ActivityScheduler :=
  mkActivityScheduler [] ∅ false None 0 0 0 false false 10.

Inductive Event : Type :=
| ActivityEvent (r : ref) (ev : activity.Event)
| OnActivityStart (r : ref)
| OnActivityComplete (r : ref) (success : bool).

(** The objects ([heap]), the scheduler, the wall clock, what observers saw
    ([log]) and the worker threads started by [run_activity_now] that have
    not run yet ([threads], each one a call of [_execute_activity]). *)
Record World : Type := mkWorld {
  heap : ref -> activity.Activity;
  sched : ActivityScheduler;
  clock : Z;
  log : list Event;
  threads : list ref
}.

Section setters.
Definition with_sched (f : ActivityScheduler -> ActivityScheduler)
  (w : World) : World :=
  mkWorld (heap w) (f (sched w)) (clock w) (log w) (threads w).
Definition with_heap (f : (ref -> activity.Activity) -> ref -> activity.Activity)
  (w : World) : World :=
  mkWorld (f (heap w)) (sched w) (clock w) (log w) (threads w).
Definition emit (evs : list Event) (w : World) : World :=
  mkWorld (heap w) (sched w) (clock w) (log w ++ evs) (threads w).
Definition advance (d : Z) (w : World) : World :=
  mkWorld (heap w) (sched w) (clock w + d) (log w) (threads w).
Definition spawn (r : ref) (w : World) : World :=
  mkWorld (heap w) (sched w) (clock w) (log w) (threads w ++ [r]).

Definition set_activities (l : list ref) (s : ActivityScheduler) :=
  mkActivityScheduler l (_activities_by_id s) (running s)
    (_current_activity s) (total_executions s) (successful_executions s)
    (failed_executions s) (on_activity_start s) (on_activity_complete s)
    (check_interval_seconds s).
Definition set_activities_by_id (m : gmap string ref) (s : ActivityScheduler) :=
  mkActivityScheduler (_activities s) m (running s)
    (_current_activity s) (total_executions s) (successful_executions s)
    (failed_executions s) (on_activity_start s) (on_activity_complete s)
    (check_interval_seconds s).
Definition set_current_activity (c : option ref) (s : ActivityScheduler) :=
  mkActivityScheduler (_activities s) (_activities_by_id s) (running s)
    c (total_executions s) (successful_executions s)
    (failed_executions s) (on_activity_start s) (on_activity_complete s)
    (check_interval_seconds s).
Definition set_total_executions (n : Z) (s : ActivityScheduler) :=
  mkActivityScheduler (_activities s) (_activities_by_id s) (running s)
    (_current_activity s) n (successful_executions s)
    (failed_executions s) (on_activity_start s) (on_activity_complete s)
    (check_interval_seconds s).
Definition set_successful_executions (n : Z) (s : ActivityScheduler) :=
  mkActivityScheduler (_activities s) (_activities_by_id s) (running s)
    (_current_activity s) (total_executions s) n
    (failed_executions s) (on_activity_start s) (on_activity_complete s)
    (check_interval_seconds s).
Definition set_failed_executions (n : Z) (s : ActivityScheduler) :=
  mkActivityScheduler (_activities s) (_activities_by_id s) (running s)
    (_current_activity s) (total_executions s) (successful_executions s)
    n (on_activity_start s) (on_activity_complete s)
    (check_interval_seconds s).
End setters.

Local Open Scope py_scope.

Definition this : M World ActivityScheduler := fun w => (Ok (sched w), w).
Definition assign (f : ActivityScheduler -> ActivityScheduler) : M World unit :=
  modify (with_sched f).
Definition deref (r : ref) : M World activity.Activity :=
  fun w => (Ok (heap w r), w).

(** [if callback: callback(...)] for a callback that records [ev] *)
Definition notify (callback : bool) (ev : Event) : M World unit :=
  if callback then modify (emit [ev]) else ret tt.

(** What the two handlers the scheduler installs on an activity do with a
    callback: [_on_activity_state_change] only logs,
    [_on_activity_execution_complete] forwards to [on_activity_complete]. *)
Definition forward (s : ActivityScheduler) (r : ref) (ev : activity.Event)
  : list Event :=
  match ev with
  | activity.OnExecutionComplete success =>
      if on_activity_complete s
      then [ActivityEvent r ev; OnActivityComplete r success]
      else [ActivityEvent r ev]
  | _ => [ActivityEvent r ev]
  end.

(** A method call [activity.m(...)] on the object [r]. *)
Definition on_activity {A : Type} (r : ref) (m : M activity.Env A) : M World A :=
  fun w =>
    match m (activity.mkEnv (heap w r) (clock w) []) with
    | (res, e) =>
        (res, mkWorld (<[r := activity.self e]> (heap w)) (sched w)
                (activity.clock e)
                (log w ++ concat (map (forward (sched w) r) (activity.events e)))
                (threads w))
    end.

(** [str.lower()] and [str.replace(' ', '_')] *)
Definition lower_char (c : ascii) : ascii :=
  let n := nat_of_ascii c in
  if ((65 <=? n) && (n <=? 90))%nat then ascii_of_nat (n + 32) else c.

Fixpoint map_string (f : ascii -> ascii) (s : string) : string :=
  match s with
  | EmptyString => EmptyString
  | String c s' => String (f c) (map_string f s')
  end.

Definition lower (s : string) : string := map_string lower_char s.
Definition replace_space (s : string) : string :=
  map_string (fun c => if Ascii.eqb c " "%char then "_"%char else c) s.

(** [activity.name.lower().replace(' ', '_')] *)
Definition derived_id (name : string) : string := replace_space (lower name).

(** [register_activity] *)
Definition register_activity (r : ref) (activity_id : option string)
  : M World unit :=
  s <- this;;
  if bool_decide (r ∈ _activities s) then ret tt
  else
    assign (set_activities (_activities s ++ [r]));;;
    a <- deref r;;
    let activity_id :=
      match activity_id with
      | Some i => if truthy activity_id then i else derived_id (activity.name a)
      | None => derived_id (activity.name a)
      end in
    s <- this;;
    assign (set_activities_by_id (<[activity_id := r]> (_activities_by_id s)));;;
    modify (with_heap (fun h => <[r := activity.set_callbacks true true (h r)]> h)).

(** [list.remove(x)]: the first occurrence goes; [ValueError] without one. *)
Fixpoint list_remove (x : ref) (l : list ref) : option (list ref) :=
  match l with
  | [] => None
  | y :: l' => if bool_decide (x = y) then Some l'
               else option_map (cons y) (list_remove x l')
  end.

(** [unregister_activity] *)
Definition unregister_activity (activity_id : string) : M World bool :=
  s <- this;;
  match _activities_by_id s !! activity_id with
  | None => ret false
  | Some r =>
      match list_remove r (_activities s) with
      | None => raise
      | Some l =>
          assign (set_activities l);;;
          s <- this;;
          assign (set_activities_by_id (delete activity_id (_activities_by_id s)));;;
          ret true
      end
  end.

(** [get_activity] *)
Definition get_activity (activity_id : string) : M World (option ref) :=
  s <- this;; ret (_activities_by_id s !! activity_id).

(** [list.sort(key=...)] is stable: elements with equal keys keep their
    order.  Insertion from the right end of the list. *)
Fixpoint insert_by (key : ref -> Z) (x : ref) (l : list ref) : list ref :=
  match l with
  | [] => [x]
  | y :: l' => if key x <=? key y then x :: y :: l' else y :: insert_by key x l'
  end.

Definition sort_by (key : ref -> Z) (l : list ref) : list ref :=
  foldr (insert_by key) [] l.

(** The loop of [_get_next_due_activity] that collects the due activities. *)
Fixpoint collect_due (l : list ref) (due_activities : list ref)
  : M World (list ref) :=
  match l with
  | [] => ret due_activities
  | r :: l' =>
      a <- deref r;;
      if negb (activity.enabled (activity.config a)) then
        collect_due l' due_activities
      else if bool_decide (activity.state a = activity.DISABLED) then
        collect_due l' due_activities
      else
        d <- on_activity r activity.is_due;;
        if d then collect_due l' (due_activities ++ [r])
        else collect_due l' due_activities
  end.

(** [_get_next_due_activity] *)
Definition _get_next_due_activity : M World (option ref) :=
  s <- this;;
  due_activities <- collect_due (_activities s) [];;
  match due_activities with
  | [] => ret None
  | _ =>
      w <- get;;
      let due_activities :=
        sort_by (fun r => activity.priority (activity.config (heap w r)))
          due_activities in
      ret (head due_activities)
  end.

(** [_execute_activity] *)
Definition _execute_activity (ph : activity.Phases) (r : ref) : M World unit :=
  assign (set_current_activity (Some r));;;
  s <- this;;
  notify (on_activity_start s) (OnActivityStart r);;;
  try_finally
    (try_except
       (success <- on_activity r (activity.run ph);;
        s <- this;;
        assign (set_total_executions (total_executions s + 1));;;
        s <- this;;
        if success
        then assign (set_successful_executions (successful_executions s + 1))
        else assign (set_failed_executions (failed_executions s + 1)))
       (s <- this;;
        assign (set_failed_executions (failed_executions s + 1))))
    (assign (set_current_activity None)).

(** [time.sleep(self.check_interval_seconds)]; a negative length is a
    [ValueError]. *)
Definition sleep : M World unit :=
  s <- this;;
  if check_interval_seconds s <? 0 then raise
  else modify (advance (check_interval_seconds s * SECOND)).

(** One iteration of the [while self.running] loop of [_scheduler_loop];
    [phases r] is how the three methods of [r] behave if it is run now. *)
Definition tick (phases : ref -> activity.Phases) : M World unit :=
  try_except
    (next <- _get_next_due_activity;;
     match next with
     | Some r => _execute_activity (phases r) r
     | None => sleep
     end)
    sleep.


(** [run_activity_now]: the thread it starts is left in [threads]. *)
Definition run_activity_now (activity_id : string) : M World bool :=
  activity <- get_activity activity_id;;
  match activity with
  | None => ret false
  | Some r =>
      s <- this;;
      match _current_activity s with
      | Some _ => ret false
      | None => modify (spawn r);;; ret true
      end
  end.

(** The body of the oldest thread started by [run_activity_now]. *)
Definition run_thread (ph : activity.Phases) : M World unit :=
  w <- get;;
  match threads w with
  | [] => ret tt
  | r :: rest =>
      modify (fun w => mkWorld (heap w) (sched w) (clock w) (log w) rest);;;
      _execute_activity ph r
  end.

(** [enable_activity], [disable_activity], [reset_activity_statistics] *)
Definition enable_activity (activity_id : string) : M World bool :=
  activity <- get_activity activity_id;;
  match activity with
  | Some r => on_activity r activity.enable;;; ret true
  | None => ret false
  end.

Definition disable_activity (activity_id : string) : M World bool :=
  activity <- get_activity activity_id;;
  match activity with
  | Some r => on_activity r activity.disable;;; ret true
  | None => ret false
  end.

Definition reset_activity_statistics (activity_id : string) : M World bool :=
  activity <- get_activity activity_id;;
  match activity with
  | Some r => on_activity r activity.reset_statistics;;; ret true
  | None => ret false
  end.

(** *** Functional reading of the methods *)

(** The world after [activity.run()] on [r]. *)
Definition ran (ph : activity.Phases) (r : ref) (w : World) : bool * World :=
  let res := activity.run_result ph (activity.mkEnv (heap w r) (clock w) []) in
  (fst res,
   mkWorld (<[r := activity.self (snd res)]> (heap w)) (sched w)
     (activity.clock (snd res))
     (log w ++ concat (map (forward (sched w) r) (activity.events (snd res))))
     (threads w)).

Definition counted (success : bool) (s : ActivityScheduler) : ActivityScheduler :=
  if success
  then set_successful_executions (successful_executions s + 1)
         (set_total_executions (total_executions s + 1) s)
  else set_failed_executions (failed_executions s + 1)
         (set_total_executions (total_executions s + 1) s).

(** The world after [_execute_activity(r)]. *)
Definition executed (ph : activity.Phases) (r : ref) (w : World) : World :=
  let w1 :=
    emit (if on_activity_start (sched w) then [OnActivityStart r] else [])
      (with_sched (set_current_activity (Some r)) w) in
  let res := ran ph r w1 in
  with_sched (fun s => set_current_activity None (counted (fst res) s)) (snd res).

(** The heap after the loop of [_get_next_due_activity] has called
    [is_due()] on the enabled, not disabled activities of [l]. *)
Definition poll_step (clk : Z) (h : ref -> activity.Activity) (r : ref)
  : ref -> activity.Activity :=
  if activity.enabled (activity.config (h r))
     && negb (bool_decide (activity.state (h r) = activity.DISABLED))
  then <[r := activity.polled clk (h r)]> h else h.

Definition poll_all (clk : Z) (l : list ref) (h : ref -> activity.Activity)
  : ref -> activity.Activity :=
  foldl (poll_step clk) h l.

(** The registered activities that are enabled, not disabled and due, in
    the order of registration. *)
Definition candidates (w : World) : list ref :=
  List.filter (fun r => activity.due (clock w) (heap w r)) (_activities (sched w)).

Definition polled_world (w : World) : World :=
  mkWorld (poll_all (clock w) (_activities (sched w)) (heap w))
    (sched w) (clock w) (log w) (threads w).

(** [r] is the first element of [l] whose key is the lowest. *)
Definition first_lowest (key : ref -> Z) (l : list ref) (r : ref) : Prop :=
  exists l1 l2, l = l1 ++ r :: l2 /\
    Forall (fun x => key r < key x) l1 /\ Forall (fun x => key r <= key x) l2.

Definition priority_of (w : World) (r : ref) : Z :=
  activity.priority (activity.config (heap w r)).

Definition slept (w : World) : World :=
  advance (check_interval_seconds (sched w) * SECOND) w.

(** The world after [register_activity] has registered [r] as
    [activity_id]. *)
Definition registered (r : ref) (activity_id : string) (w : World) : World :=
  mkWorld (<[r := activity.set_callbacks true true (heap w r)]> (heap w))
    (set_activities_by_id (<[activity_id := r]> (_activities_by_id (sched w)))
       (set_activities (_activities (sched w) ++ [r]) (sched w)))
    (clock w) (log w) (threads w).

(** *** Scenarios *)

(** One registered activity, [a0], that has never run. *)
Definition one_registered : World :=
  snd (register_activity 0%nat None (mkWorld (fun _ => activity.a0) __init__ 0 [] [])).

(** Two registered activities that have never run: [0] with priority 7,
    registered first, and [1] with priority 2. *)
Definition two_due : World :=
  snd ((register_activity 0%nat None;;; register_activity 1%nat None)
         (mkWorld (fun r => match r with
                            | O => activity.__init__ "Resource Gathering"
                                     (activity.mkActivityConfig true 0 10 None None 7 3 5 300)
                            | _ => activity.__init__ "Shield Monitor"
                                     (activity.mkActivityConfig true 0 10 None None 2 3 5 300)
                            end)
            __init__ 0 [] [])).

(** Two distinct activities whose names give the same id, none of them
    registered yet. *)
Definition same_id : World :=
  mkWorld (fun r => match r with
                    | O => activity.__init__ "Alliance Help" activity.default_config
                    | _ => activity.__init__ "alliance help" activity.default_config
                    end)
    __init__ 0 [] [].

End scheduler.

(** ** What the further properties speak of *)

(** *** Activities *)

Module accounting.
Import activity.

(** The three counters of an activity add up. *)
Definition balanced (a : Activity) : Prop :=
  0 <= successful_executions a /\ 0 <= failed_executions a /\
  total_executions a = successful_executions a + failed_executions a.

(** An enabled activity has retries left. *)
Definition retries_left (a : Activity) : Prop :=
  enabled (config a) = true -> retry_count a < max_retries (config a).

End accounting.

(** *** The scheduler: registry, queries and controls *)

Module registry.
Import scheduler.
Local Open Scope py_scope.

(** The registry is in order: no activity is listed twice, every id
    denotes a listed activity, and no activity has two ids. *)
Definition well_formed (s : ActivityScheduler) : Prop :=
  NoDup (_activities s) /\
  (forall k r, _activities_by_id s !! k = Some r -> r ∈ _activities s) /\
  (forall k k' r, _activities_by_id s !! k = Some r ->
                  _activities_by_id s !! k' = Some r -> k = k').


(** The id [register_activity] files an activity under. *)
Definition chosen_id (activity_id : option string) (a : activity.Activity) : string :=
  match activity_id with
  | Some i => if truthy activity_id then i else derived_id (activity.name a)
  | None => derived_id (activity.name a)
  end.



(** The world after the iterations [ps] of the loop, one after the other. *)
Definition ticks (ps : list (ref -> activity.Phases)) (w : World) : World :=
  foldl (fun w p => snd (tick p w)) w ps.

(** The call [ctl] of the scheduler succeeds and is the call [m] on the
    activity [r], and nothing else. *)
Definition applies (ctl : M World bool) (m : M activity.Env unit) (r : ref)
  (w : World) : Prop :=
  exists w', ctl w = (Ok true, w') /\
    heap w' r = activity.self (snd (m (activity.mkEnv (heap w r) (clock w) []))) /\
    (forall r', r' <> r -> heap w' r' = heap w r') /\
    sched w' = sched w /\ clock w' = clock w /\ threads w' = threads w.

(** [get_all_activities] *)
Definition get_all_activities : M World (list ref) :=
  s <- this;; ret (_activities s).

(** [get_enabled_activities] *)
Definition get_enabled_activities : M World (list ref) :=
  s <- this;;
  w <- get;;
  ret (List.filter (fun r => activity.enabled (activity.config (heap w r)))
         (_activities s)).

(** [datetime.now()] *)
Definition datetime_now : M World Z := fun w => (Ok (clock w), w).

(** An entry of the list [get_next_scheduled_activities] returns. *)
Record Upcoming : Type := mkUpcoming {
  name : string;
  priority : Z;
  next_execution : Z;
  time_until : Q
}.

(** The loop of [get_next_scheduled_activities]. *)
Fixpoint collect_scheduled (l : list ref) (scheduled : list Upcoming)
  : M World (list Upcoming) :=
  match l with
  | [] => ret scheduled
  | r :: l' =>
      a <- deref r;;
      if negb (activity.enabled (activity.config a)) then
        collect_scheduled l' scheduled
      else
        match activity.next_execution a with
        | Some n =>
            t <- datetime_now;;
            collect_scheduled l'
              (scheduled ++ [mkUpcoming (activity.name a)
                               (activity.priority (activity.config a)) n
                               (total_seconds (n - t))])
        | None => collect_scheduled l' scheduled
        end
  end.

(** [list.sort(key=...)] on the entries: stable insertion, as [sort_by]. *)
Fixpoint insert_on (key : Upcoming -> Z) (x : Upcoming) (l : list Upcoming)
  : list Upcoming :=
  match l with
  | [] => [x]
  | y :: l' => if key x <=? key y then x :: y :: l' else y :: insert_on key x l'
  end.

Definition sort_on (key : Upcoming -> Z) (l : list Upcoming) : list Upcoming :=
  foldr (insert_on key) [] l.

(** [l[:count]]: a negative [count] counts from the end. *)
Definition slice_to (count : Z) (l : list Upcoming) : list Upcoming :=
  if 0 <=? count then take (Z.to_nat count) l
  else take (Z.to_nat (Z.of_nat (length l) + count)) l.

(** [get_next_scheduled_activities] *)
Definition get_next_scheduled_activities (count : Z) : M World (list Upcoming) :=
  s <- this;;
  scheduled <- collect_scheduled (_activities s) [];;
  let scheduled := sort_on next_execution scheduled in
  ret (slice_to count scheduled).

(** The entries [get_next_scheduled_activities] collects: one for each
    enabled activity that has a [next_execution], in the order of
    registration. *)
Definition entry_of (w : World) (r : ref) : option Upcoming :=
  let a := heap w r in
  if activity.enabled (activity.config a) then
    match activity.next_execution a with
    | Some n => Some (mkUpcoming (activity.name a)
                        (activity.priority (activity.config a)) n
                        (total_seconds (n - clock w)))
    | None => None
    end
  else None.

Definition upcoming (w : World) : list Upcoming :=
  omap (entry_of w) (_activities (sched w)).

(** The loop of [reset_all_statistics]. *)
Fixpoint reset_each (l : list ref) : M World unit :=
  match l with
  | [] => ret tt
  | r :: l' => on_activity r activity.reset_statistics;;; reset_each l'
  end.

(** [reset_all_statistics]; the [start_time] of the scheduler is kept
    beside the world. *)
Definition reset_all_statistics : M (World * option Z) unit :=
  fun '(w, start_time) =>
    let w := with_sched (set_total_executions 0) w in
    let w := with_sched (set_successful_executions 0) w in
    let w := with_sched (set_failed_executions 0) w in
    let start_time := Some (clock w) in
    match reset_each (_activities (sched w)) w with
    | (res, w') => (res, (w', start_time))
    end.

End registry.

(** * The methods compute their functional reading *)

Import activity.
Local Open Scope py_scope.

(** What [parse_time] accepts: [int] strips blanks and allows single
    underscores between digits, [dt_time] checks the ranges. *)
Lemma parse_time_examples :
  parse_time "06:00" = Some (6 * HOUR) /\
  parse_time "23:59" = Some (23 * HOUR + 59 * MINUTE) /\
  parse_time " 7 : 3_0 " = Some (7 * HOUR + 30 * MINUTE) /\
  parse_time (String (ascii_of_nat 9) "7:30") = Some (7 * HOUR + 30 * MINUTE) /\
  parse_time (String (ascii_of_nat 31) "7:30") = None /\
  parse_time "24:00" = None /\
  parse_time "7:60" = None /\
  parse_time "7" = None /\
  parse_time "7:30:00" = None /\
  parse_time "-1:30" = None /\
  parse_time "7:_3" = None /\
  parse_time "six" = None.
Proof. repeat split; reflexivity. Qed.

(** What [int] accepts: blanks at both ends, a sign, single underscores
    between digits, and at most [int_max_str_digits] digits. *)
Lemma py_int_examples :
  py_int (list_ascii_of_string " +1_0 ") = Some 10 /\
  py_int (list_ascii_of_string "-07") = Some (-7) /\
  py_int (list_ascii_of_string "+ 7") = None /\
  py_int (list_ascii_of_string " ") = None /\
  py_int (List.repeat "0"%char 4300) = Some 0 /\
  py_int (List.repeat "0"%char 4301) = None.
Proof. vm_compute. repeat split; reflexivity. Qed.

Ltac exec :=
  cbv beta iota zeta delta
    [bind ret raise get modify try_except try_finally this now assign call
     with_self emit advance];
  cbn [self clock events].

Lemma run_with_timeout_eq p t e :
  _run_with_timeout p t e = (Ok (truth p), advance (takes p) e).
Proof. unfold _run_with_timeout, truth. exec. by destruct (returns p) as [[]|]. Qed.

Lemma parse_bound_eq s e :
  parse_bound s e = (match bound s with Some b => Ok b | None => Raise end, e).
Proof.
  unfold parse_bound, bound. destruct (truthy s); [|done].
  destruct s as [str|]; [|done]. by destruct (parse_time str).
Qed.

Lemma adjust_eq t e :
  _adjust_for_time_window t e =
    (Ok (if truthy (start_time (config (self e))) || truthy (end_time (config (self e)))
         then window_adjust (config (self e)) t else t), e).
Proof.
  unfold _adjust_for_time_window, window_adjust. exec.
  destruct (truthy _ || truthy _); [|done]. cbn [negb].
  rewrite parse_bound_eq. destruct (bound (start_time _)) as [st|]; [|done].
  rewrite parse_bound_eq. destruct (bound (end_time _)) as [en|]; [|by destruct st].
  destruct st as [st|]; [|done].
  destruct (time_of t <? st); [done|].
  destruct en as [en|]; [|done]. by destruct (time_of t >? en).
Qed.

Lemma get_next_execution_time_eq e :
  get_next_execution_time e = (Ok (next_time (clock e) (self e)), e).
Proof.
  unfold get_next_execution_time, next_time. exec.
  destruct (last_execution (self e)) as [last|]; [|reflexivity].
  destruct (truthy _ || truthy _) eqn:E; [|reflexivity].
  rewrite adjust_eq. exec. by rewrite E.
Qed.

Lemma notify_eq (b : bool) ev (e : Env) :
  notify b ev e = (Ok tt, mkEnv (self e) (clock e) (events e ++ if b then [ev] else [])).
Proof. unfold notify. destruct b, e; exec; [done|]. by rewrite app_nil_r. Qed.

Lemma change_state_eq s e : _change_state s e = (Ok tt, changed s e).
Proof.
  unfold _change_state, changed, notified. destruct e as [a c evs]. exec.
  rewrite notify_eq. cbn. rewrite <- app_assoc.
  by destruct (on_state_change a && _).
Qed.

Lemma handle_failure_eq e : _handle_failure e = (Ok tt, failed e).
Proof.
  unfold _handle_failure, failed, failure, completed. destruct e as [a c evs].
  exec. cbn [retry_count set_retry_count set_failed_executions set_total_executions config].
  destruct (retry_count a + 1 >=? max_retries (config a)).
  - rewrite change_state_eq. exec. rewrite notify_eq. reflexivity.
  - exec. rewrite notify_eq. cbn. by rewrite app_nil_r.
Qed.

Lemma handle_success_eq q e :
  _handle_success q e =
    if total_executions (self e) + 1 =? 0
    then (Raise, mkEnv (success_partial q (self e) (clock e)) (clock e) (events e))
    else (Ok tt, completed true (mkEnv (success q (self e) (clock e)) (clock e) (events e))).
Proof.
  unfold _handle_success, success, success_partial, completed. destruct e as [a c evs].
  exec. rewrite get_next_execution_time_eq. exec.
  cbn [total_executions set_total_execution_time_seconds set_next_execution
       set_last_execution set_retry_count set_successful_executions
       set_total_executions].
  destruct (total_executions a + 1 =? 0); [reflexivity|].
  exec. rewrite notify_eq. reflexivity.
Qed.

Lemma finally_eq (e : Env) :
  (a <- this;;
   when_ negb (bool_decide (state a = DISABLED)) then_ _change_state SCHEDULED) e
  = (Ok tt, finally_ e).
Proof.
  unfold finally_. exec. destruct (bool_decide _); cbn [negb]; [reflexivity|].
  apply change_state_eq.
Qed.

Lemma try_finally_eq {A} (body : M Env A) e r e' :
  body e = (r, e') ->
  try_finally body
    (a <- this;;
     when_ negb (bool_decide (state a = DISABLED)) then_ _change_state SCHEDULED) e
  = (r, finally_ e').
Proof. intros H. unfold try_finally. rewrite H, finally_eq. reflexivity. Qed.

Lemma run_eq ph e :
  run ph e = (Ok (fst (run_result ph e)), snd (run_result ph e)).
Proof.
  unfold run. unfold bind at 1. unfold now at 1. cbv beta iota.
  unfold run_result. cbn [fst snd]. apply try_finally_eq.
  unfold run_body, after_verify, after_execute, after_check.
  unfold try_except at 1.
  unfold bind at 1. rewrite change_state_eq.
  unfold bind at 1. rewrite run_with_timeout_eq.
  destruct (truth (check_prerequisites ph)); cbn [negb fst snd].
  2:{ unfold bind at 1. rewrite change_state_eq. reflexivity. }
  unfold bind at 1. rewrite change_state_eq.
  unfold bind at 1. rewrite change_state_eq.
  unfold bind at 1. unfold this at 1. cbv beta iota.
  unfold bind at 1. rewrite run_with_timeout_eq.
  destruct (truth (execute ph)); cbn [negb fst snd].
  2:{ unfold bind at 1. rewrite handle_failure_eq. reflexivity. }
  unfold bind at 1. rewrite change_state_eq.
  unfold bind at 1. rewrite run_with_timeout_eq.
  destruct (truth (verify_completion ph)); cbn [negb fst snd].
  2:{ unfold bind at 1. rewrite handle_failure_eq. reflexivity. }
  unfold bind at 1. rewrite change_state_eq.
  unfold bind at 1. unfold now at 1. cbv beta iota.
  unfold bind at 1. rewrite handle_success_eq.
  match goal with |- context [if ?c then _ else _] => destruct c end.
  - unfold bind at 1. rewrite handle_failure_eq. reflexivity.
  - reflexivity.
Qed.

Lemma assigned_app tr1 tr2 : assigned (tr1 ++ tr2) = assigned tr1 ++ assigned tr2.
Proof. apply omap_app. Qed.

Lemma assigned_notified o n a : assigned (notified o n a) = [].
Proof. unfold notified. by destruct (_ && _). Qed.

Lemma truth_as_false p : truth (as_false p) = truth p.
Proof. unfold truth, as_false. by destruct (returns p) as [[]|]. Qed.

Lemma run_result_as_false ph e :
  run_result (mkPhases (as_false (check_prerequisites ph)) (as_false (execute ph))
                (as_false (verify_completion ph))) e = run_result ph e.
Proof.
  unfold run_result, run_body, after_verify, after_execute, after_check.
  cbn [check_prerequisites execute verify_completion].
  rewrite !truth_as_false. reflexivity.
Qed.

Lemma assigned_set o s tr : assigned (StateSet o s :: tr) = s :: assigned tr.
Proof. reflexivity. Qed.

Lemma assigned_complete (b s : bool) :
  assigned (if b then [OnExecutionComplete s] else []) = [].
Proof. by destruct b. Qed.

Ltac act_simpl :=
  cbn [self clock events changed advance completed
       name config state last_execution next_execution retry_count
       total_executions successful_executions failed_executions
       total_execution_time_seconds average_execution_time_seconds
       on_state_change on_execution_complete
       set_config set_state set_last_execution set_next_execution
       set_retry_count set_total_executions set_successful_executions
       set_failed_executions set_total_execution_time_seconds
       set_average_execution_time_seconds set_callbacks
       enabled interval_hours interval_minutes start_time end_time priority
       max_retries retry_delay_minutes max_execution_seconds set_enabled
       success success_partial fst snd negb] in *.

Ltac decide_state :=
  repeat first
    [ rewrite bool_decide_eq_true_2 by reflexivity
    | rewrite bool_decide_eq_false_2 by discriminate ].

(** Every way [run] can go, with the environment it leaves simplified. *)
Ltac run_cases ph a :=
  unfold run_result, run_body, after_verify, after_execute, after_check;
  destruct (truth (check_prerequisites ph)) eqn:?Hcheck; cbn [negb];
  [ destruct (truth (execute ph)) eqn:?Hexecute; cbn [negb];
    [ destruct (truth (verify_completion ph)) eqn:?Hverify; cbn [negb];
      [ cbn zeta; act_simpl;
        destruct (total_executions a + 1 =? 0) eqn:?Hzero;
        [ unfold failed, failure; act_simpl;
          destruct (0 + 1 >=? max_retries (config a)) eqn:?Hretry
        | ]
      | unfold failed, failure; act_simpl;
        destruct (retry_count a + 1 >=? max_retries (config a)) eqn:?Hretry ]
    | unfold failed, failure; act_simpl;
      destruct (retry_count a + 1 >=? max_retries (config a)) eqn:?Hretry ]
  | ];
  unfold finally_; act_simpl; decide_state; act_simpl.

Create HintDb trace.
#[local] Hint Rewrite assigned_app assigned_set assigned_notified
  assigned_complete : trace.

(** The trace a run appends, and the states it assigns. *)
Ltac trace_simpl :=
  rewrite <- ?app_assoc; eexists; split; [reflexivity|];
  autorewrite with trace;
  change (assigned []) with (@nil ActivityState); cbn [app].

Ltac mem_solve :=
  repeat match goal with
    | H : _ ∈ _ :: _ |- _ => apply elem_of_cons in H as [H|H]; try discriminate H
    | H : _ ∈ [] |- _ => by apply elem_of_nil in H
    end.

Lemma run_reaches_success ph a c evs :
  0 <= total_executions a ->
  exists tr, events (snd (run_result ph (mkEnv a c evs))) = evs ++ tr /\
    (fst (run_result ph (mkEnv a c evs)) = true <-> SUCCESS ∈ assigned tr).
Proof.
  intros Hpos. run_cases ph a; try (apply Z.eqb_eq in Hzero; lia).
  all: trace_simpl.
  all: split; [try discriminate; intros _; set_solver | try done; intros H; mem_solve].
Qed.

(** The counter of executions stays non-negative. *)
Lemma run_counter_nonneg ph e :
  0 <= activity.total_executions (self e) ->
  0 <= activity.total_executions (self (snd (run ph e))).
Proof.
  destruct e as [a c evs]. rewrite run_eq. cbn [snd self]. intros H.
  unfold run_result, run_body, after_verify, after_execute, after_check.
  destruct (truth (check_prerequisites ph)); cbn [negb];
  [ destruct (truth (execute ph)); cbn [negb];
    [ destruct (truth (verify_completion ph)); cbn [negb] | ] | ].
  all: cbn zeta; unfold failed, failure, finally_.
  all: repeat match goal with |- context [if ?c then _ else _] => destruct c end.
  all: cbn; lia.
Qed.

(** C1.  [run] never lets an exception out: it always returns a boolean.
    It returns [true] exactly when the state [SUCCESS] was assigned during
    the call (for a [total_executions] that is not negative, as every
    counter that starts at 0 is).  A phase that raises is caught in
    [_run_with_timeout]: the call gives the same value and leaves the same
    activity, clock and trace as with that phase returning [false]. *)
Theorem C1_run_contract (ph : Phases) (e : Env) :
  exists (b : bool) (e' : Env) (tr : list Event),
    run ph e = (Ok b, e') /\
    events e' = events e ++ tr /\
    (0 <= total_executions (self e) -> (b = true <-> SUCCESS ∈ assigned tr)) /\
    run (mkPhases (as_false (check_prerequisites ph)) (as_false (execute ph))
           (as_false (verify_completion ph))) e = (Ok b, e').
Proof.
  destruct e as [a c evs].
  destruct (decide (0 <= total_executions a)) as [Hpos|Hneg].
  - destruct (run_reaches_success ph a c evs Hpos) as (tr & Htr & Hiff).
    exists (fst (run_result ph (mkEnv a c evs))), (snd (run_result ph (mkEnv a c evs))), tr.
    rewrite !run_eq, run_result_as_false. auto.
  - assert (exists tr, events (snd (run_result ph (mkEnv a c evs))) = evs ++ tr) as [tr Htr].
    { run_cases ph a; rewrite <- ?app_assoc; by eexists. }
    exists (fst (run_result ph (mkEnv a c evs))), (snd (run_result ph (mkEnv a c evs))), tr.
    rewrite !run_eq, run_result_as_false. cbn [self]. repeat split; auto; lia.
Qed.

Lemma C1_run_contract_witness :
  exists (b : bool) (e' : Env) (tr : list Event),
    run (mkPhases (mkPhaseOutcome (Some true) 1000) (mkPhaseOutcome None 2000)
           (mkPhaseOutcome (Some true) 1000)) (mkEnv a0 0 []) = (Ok b, e') /\
    events e' = [] ++ tr /\
    (b = true <-> SUCCESS ∈ assigned tr).
Proof.
  destruct (C1_run_contract
              (mkPhases (mkPhaseOutcome (Some true) 1000) (mkPhaseOutcome None 2000)
                 (mkPhaseOutcome (Some true) 1000)) (mkEnv a0 0 []))
    as (b & e' & tr & H1 & H2 & H3 & _).
  exists b, e', tr. split; [exact H1|]. split; [exact H2|].
  apply H3. vm_compute. discriminate.
Defined.

Lemma failing_run x e :
  fails (snd x) = true ->
  let a := self e in
  let e' := run_after x e in
  let a' := self e' in
  total_executions a' = total_executions a + 1 /\
  failed_executions a' = failed_executions a + 1 /\
  successful_executions a' = successful_executions a /\
  retry_count a' = retry_count a + 1 /\
  last_execution a' = last_execution a /\
  set_enabled true (config a') = set_enabled true (config a) /\
  if retry_count a + 1 >=? max_retries (config a)
  then state a' = DISABLED /\ enabled (config a') = false /\
       next_execution a' = next_execution a
  else state a' = SCHEDULED /\ config a' = config a /\
       next_execution a' =
         Some (clock e' + timedelta 0 (retry_delay_minutes (config a))).
Proof.
  destruct x as [d ph], e as [a c evs]. unfold fails, run_after. cbn [fst snd advance self clock events].
  intros Hf. rewrite run_eq. cbn [snd].
  run_cases ph a; try discriminate Hf; cbn zeta; act_simpl; auto 10.
Qed.

Lemma runs_snoc l x e : runs (l ++ [x]) e = run_after x (runs l e).
Proof. unfold runs. by rewrite foldl_app. Qed.

(** Failures that stay below [max_retries]. *)
Lemma failing_runs_below l e :
  Forall (fun x => fails (snd x) = true) l ->
  retry_count (self e) + Z.of_nat (length l) < max_retries (config (self e)) ->
  let a := self e in
  let a' := self (runs l e) in
  total_executions a' = total_executions a + Z.of_nat (length l) /\
  failed_executions a' = failed_executions a + Z.of_nat (length l) /\
  retry_count a' = retry_count a + Z.of_nat (length l) /\
  last_execution a' = last_execution a /\
  config a' = config a /\
  (l <> [] ->
   state a' = SCHEDULED /\
   next_execution a' =
     Some (clock (runs l e) + timedelta 0 (retry_delay_minutes (config a)))).
Proof.
  induction l as [|x l IH] using rev_ind; intros Hall Hlt.
  - cbn. repeat split; try lia; done.
  - apply Forall_app in Hall as [Hall Hx]. apply Forall_inv in Hx.
    rewrite length_app in *. cbn [length] in *.
    destruct IH as (Ht & Hf & Hr & Hl & Hc & _); [done|lia|].
    rewrite runs_snoc. cbn zeta.
    pose proof (failing_run x (runs l e) Hx) as Hstep. cbn zeta in Hstep.
    destruct Hstep as (Ht' & Hf' & _ & Hr' & Hl' & _ & Hif).
    rewrite Hc, Hr in Hif.
    destruct (retry_count (self e) + Z.of_nat (length l) + 1 >=? max_retries (config (self e))) eqn:E.
    { apply Z.geb_le in E. lia. }
    destruct Hif as (Hs & Hc' & Hn).
    repeat split; try congruence; try lia.
Qed.

(** C2.  A task with [max_retries = N >= 1] and [retry_count = 0] is run
    [N] times, each time with prerequisites met and [execute] or
    [verify_completion] returning false or raising ([l] gives, for each run,
    how long the task was left alone before it and what the phases do).
    Every one of these runs adds one to [total_executions],
    [failed_executions] and [retry_count].  After the [k]-th one, [k < N]
    (so also after the [(N-1)]-th), the task is [SCHEDULED], still enabled,
    and [next_execution] is the time of that failure plus
    [retry_delay_minutes].  The [N]-th one leaves it [DISABLED] with
    [enabled = false] and with the [next_execution] it had before. *)
Theorem C2_retry_exhaustion (l : list (N * Phases)) (e : Env) :
  let a := self e in
  retry_count a = 0 ->
  1 <= max_retries (config a) ->
  Z.of_nat (length l) = max_retries (config a) ->
  Forall (fun x => fails (snd x) = true) l ->
  (forall k : nat, (k <= length l)%nat ->
     let ak := self (runs (take k l) e) in
     total_executions ak = total_executions a + Z.of_nat k /\
     failed_executions ak = failed_executions a + Z.of_nat k /\
     retry_count ak = Z.of_nat k) /\
  (forall k : nat, (1 <= k < length l)%nat ->
     let ek := runs (take k l) e in
     state (self ek) = SCHEDULED /\
     enabled (config (self ek)) = enabled (config a) /\
     next_execution (self ek) =
       Some (clock ek + timedelta 0 (retry_delay_minutes (config a)))) /\
  (let before := self (runs (take (length l - 1) l) e) in
   let after := self (runs l e) in
   state after = DISABLED /\
   enabled (config after) = false /\
   next_execution after = next_execution before).
Proof.
  intros a Hr0 Hn1 Hlen Hall. subst a.
  assert (Hbelow : forall k : nat, (k < length l)%nat ->
            let ak := self (runs (take k l) e) in
            total_executions ak = total_executions (self e) + Z.of_nat k /\
            failed_executions ak = failed_executions (self e) + Z.of_nat k /\
            retry_count ak = Z.of_nat k /\
            config ak = config (self e) /\
            (k <> 0%nat ->
             state ak = SCHEDULED /\
             next_execution ak =
               Some (clock (runs (take k l) e)
                     + timedelta 0 (retry_delay_minutes (config (self e)))))).
  { intros k Hk.
    destruct (failing_runs_below (take k l) e) as (Ht & Hf & Hr & _ & Hc & Hs).
    - by apply Forall_take.
    - rewrite length_take. lia.
    - rewrite length_take in *. replace (k `min` length l)%nat with k in * by lia.
      cbn zeta. split; [lia|]. split; [lia|]. split; [lia|]. split; [done|].
      intros Hk0. apply Hs. intros Hnil. apply (f_equal length) in Hnil.
      rewrite length_take in Hnil. cbn in Hnil. lia. }
  (* the last run *)
  assert (Hlast : exists x, l = take (length l - 1) l ++ [x] /\ fails (snd x) = true).
  { destruct l as [|x0 l0] using rev_ind; [cbn in Hlen; lia|].
    exists x0. apply Forall_app in Hall as [_ Hx]. apply Forall_inv in Hx.
    split; [|done]. rewrite length_app. cbn [length].
    replace (length l0 + 1 - 1)%nat with (length l0) by lia.
    by rewrite take_app_length. }
  destruct Hlast as (x & Hl & Hx).
  destruct (Hbelow (length l - 1)%nat) as (Ht & Hf & Hr & Hc & _); [lia|].
  pose proof (failing_run x (runs (take (length l - 1) l) e) Hx) as Hstep.
  cbn zeta in Hstep. rewrite <- runs_snoc, <- Hl in Hstep.
  destruct Hstep as (Ht' & Hf' & _ & Hr' & _ & _ & Hif).
  rewrite Hc, Hr in Hif.
  destruct (Z.of_nat (length l - 1) + 1 >=? max_retries (config (self e))) eqn:E.
  2:{ rewrite Z.geb_leb in E. apply Z.leb_gt in E. lia. }
  split; [|split].
  - intros k Hk. destruct (decide (k = length l)) as [->|Hne].
    + rewrite firstn_all. cbn zeta. lia.
    + destruct (Hbelow k) as (? & ? & ? & _); [lia|]. done.
  - intros k Hk. destruct (Hbelow k) as (_ & _ & _ & Hck & Hs); [lia|].
    destruct Hs as [Hs Hn]; [lia|]. cbn zeta. rewrite Hck. done.
  - exact Hif.
Qed.

Lemma C2_retry_exhaustion_witness :
  state (self (runs l2 (mkEnv a0 0 []))) = DISABLED /\
  enabled (config (self (runs l2 (mkEnv a0 0 [])))) = false /\
  next_execution (self (runs l2 (mkEnv a0 0 [])))
  = next_execution (self (runs (take (length l2 - 1) l2) (mkEnv a0 0 []))).
Proof.
  refine (proj2 (proj2 (C2_retry_exhaustion l2 (mkEnv a0 0 []) _ _ _ _))).
  - reflexivity.
  - vm_compute. discriminate.
  - reflexivity.
  - repeat constructor.
Defined.

(** No run assigns the state [FAILED], whatever the phases do, and no run
    ends in it. *)
Lemma run_never_enters_FAILED (ph : Phases) (e : Env) :
  state (self (snd (run ph e))) <> FAILED /\
  exists tr, events (snd (run ph e)) = events e ++ tr /\ (FAILED ∉ assigned tr).
Proof.
  destruct e as [a c evs]. rewrite run_eq. cbn [snd self events].
  run_cases ph a.
  all: split; [discriminate | trace_simpl; intros H; mem_solve].
Qed.

(** C3.  The code at the failing input: the task of the example of the
    specification, with both callbacks installed, is run with prerequisites
    met and [execute] returning false.  The run returns false, counts the
    failure and schedules the retry, and the states the task goes through
    are [CHECKING], [READY], [EXECUTING], [SCHEDULED]: [FAILED] is neither
    assigned nor reported to the state-change callback. *)
Theorem C3_failed_state_is_skipped :
  let e := mkEnv (set_callbacks true true a0) 0 [] in
  run fail_phases e =
    (Ok false,
     mkEnv (set_next_execution (Some (5 * MINUTE))
              (set_retry_count 1
                 (activity.set_failed_executions 1
                    (activity.set_total_executions 1 (set_callbacks true true a0)))))
       0
       [StateSet SCHEDULED CHECKING; OnStateChange SCHEDULED CHECKING;
        StateSet CHECKING READY; OnStateChange CHECKING READY;
        StateSet READY EXECUTING; OnStateChange READY EXECUTING;
        OnExecutionComplete false;
        StateSet EXECUTING SCHEDULED; OnStateChange EXECUTING SCHEDULED]).
Proof. vm_compute. reflexivity. Qed.

Lemma dt_time_range h m t : dt_time h m = Some t -> 0 <= t < DAY.
Proof.
  unfold dt_time, DAY, HOUR, MINUTE, SECOND.
  destruct (_ && _) eqn:E; [|discriminate]. intros [= <-].
  repeat (apply andb_true_iff in E as [E ?]).
  apply Z.leb_le in E. lia.
Qed.

Lemma parse_time_range s t : parse_time s = Some t -> 0 <= t < DAY.
Proof.
  unfold parse_time.
  destruct (split_colon _ _) as [|h [|m [|? ?]]]; try discriminate.
  destruct (py_int h), (py_int m); try discriminate. apply dt_time_range.
Qed.

Lemma bound_range s t : bound s = Some (Some t) -> 0 <= t < DAY.
Proof.
  unfold bound. destruct (truthy s); [|discriminate].
  destruct s as [str|]; [|discriminate].
  destruct (parse_time str) eqn:E; [|discriminate].
  intros [= <-]. by eapply parse_time_range.
Qed.

Lemma window_adjust_ge cfg t : t <= window_adjust cfg t.
Proof.
  unfold window_adjust.
  destruct (bound (start_time cfg)) as [[st|]|] eqn:Es; try lia.
  destruct (bound (end_time cfg)) as [en|]; try lia.
  apply bound_range in Es.
  assert (Hd : 0 < DAY) by reflexivity.
  pose proof (Z.div_mod t DAY ltac:(lia)) as Hdm.
  pose proof (Z.mod_pos_bound t DAY Hd) as Hm.
  unfold time_of, date_of, combine.
  destruct (t mod DAY <? st) eqn:E1.
  - apply Z.ltb_lt in E1. lia.
  - destruct en as [en|]; [|lia].
    destruct (t mod DAY >? en); lia.
Qed.

Lemma next_time_ge clk a last :
  last_execution a = Some last ->
  last + timedelta (interval_hours (config a)) (interval_minutes (config a))
  <= next_time clk a.
Proof.
  unfold next_time. intros ->. destruct (_ || _); [apply window_adjust_ge|lia].
Qed.

Lemma successful_run ph e :
  0 <= total_executions (self e) ->
  succeeds ph = true ->
  let a := self e in
  let e' := snd (run ph e) in
  let a' := self e' in
  fst (run ph e) = Ok true /\
  state a' = SCHEDULED /\
  config a' = config a /\
  retry_count a' = 0 /\
  total_executions a' = total_executions a + 1 /\
  successful_executions a' = successful_executions a + 1 /\
  failed_executions a' = failed_executions a /\
  last_execution a' = Some (clock e') /\
  next_execution a' = Some (next_time (clock e') a').
Proof.
  destruct e as [a c evs]. unfold succeeds. cbn [self]. intros Hpos Hs.
  rewrite run_eq. cbn [fst snd].
  run_cases ph a; try discriminate Hs; try (apply Z.eqb_eq in Hzero; lia).
  cbn zeta. repeat split; reflexivity.
Qed.

Lemma is_due_eq e :
  is_due e = (Ok (due (clock e) (self e)),
              mkEnv (polled (clock e) (self e)) (clock e) (events e)).
Proof.
  destruct e as [a c evs]. unfold is_due, due, polled. exec.
  destruct (enabled (config a)); cbn [negb andb]; [|reflexivity].
  destruct (bool_decide (state a = DISABLED)); cbn [negb andb]; [reflexivity|].
  destruct (next_execution a) as [n|] eqn:En.
  - exec. by rewrite En.
  - rewrite get_next_execution_time_eq. exec. reflexivity.
Qed.





Lemma enable_eq e :
  enable e =
    (Ok tt, changed SCHEDULED
              (mkEnv (set_retry_count 0
                        (set_config (set_enabled true (config (self e))) (self e)))
                 (clock e) (events e))).
Proof. destruct e as [a c evs]. unfold enable. exec. by rewrite change_state_eq. Qed.

Lemma disable_eq e :
  disable e =
    (Ok tt, changed IDLE
              (mkEnv (set_config (set_enabled false (config (self e))) (self e))
                 (clock e) (events e))).
Proof. destruct e as [a c evs]. unfold disable. exec. by rewrite change_state_eq. Qed.




(** * The scheduler *)

Import scheduler.

Ltac sexec :=
  cbv beta iota zeta delta
    [bind ret raise get modify try_except try_finally scheduler.this
     scheduler.assign deref with_sched with_heap scheduler.emit
     scheduler.advance spawn];
  cbn [heap sched scheduler.clock log threads].

Lemma on_activity_run_eq ph r w :
  on_activity r (run ph) w = (Ok (fst (ran ph r w)), snd (ran ph r w)).
Proof. unfold on_activity, ran. rewrite run_eq. reflexivity. Qed.

Lemma sched_notify_eq (b : bool) ev (w : World) :
  scheduler.notify b ev w = (Ok tt, scheduler.emit (if b then [ev] else []) w).
Proof. unfold scheduler.notify. destruct b, w; sexec; [done|]. by rewrite app_nil_r. Qed.

Lemma execute_activity_eq ph r w :
  _execute_activity ph r w = (Ok tt, executed ph r w).
Proof.
  destruct w as [h s c lg th]. unfold _execute_activity, executed.
  unfold bind at 1. unfold scheduler.assign, modify. cbv beta iota.
  unfold bind at 1. unfold scheduler.this at 1. cbv beta iota.
  unfold bind at 1. rewrite sched_notify_eq.
  unfold try_finally, try_except. unfold bind at 1. rewrite on_activity_run_eq.
  unfold counted. sexec.
  destruct (fst (ran ph r _)); reflexivity.
Qed.

Lemma due_polled clk a : due clk (polled clk a) = due clk a.
Proof.
  unfold due, polled.
  destruct (enabled (config a) && negb (bool_decide (state a = DISABLED))) eqn:E;
    [|by rewrite E].
  destruct (next_execution a) eqn:En; [by rewrite E, En|].
  cbn [config set_next_execution state next_execution]. by rewrite E.
Qed.

Lemma polled_polled clk a : polled clk (polled clk a) = polled clk a.
Proof.
  unfold polled.
  destruct (enabled (config a) && negb (bool_decide (state a = DISABLED))) eqn:E;
    [|by rewrite E].
  destruct (next_execution a) eqn:En; [by rewrite E, En|].
  cbn [config set_next_execution state next_execution]. by rewrite E.
Qed.

Lemma poll_step_lookup clk h r x :
  poll_step clk h r x = if bool_decide (x = r) then polled clk (h x) else h x.
Proof.
  unfold poll_step. destruct (decide (x = r)) as [->|Hx].
  - rewrite (bool_decide_eq_true_2 (r = r)) by done. destruct (_ && _) eqn:E.
    + by rewrite fn_lookup_insert.
    + unfold polled. by rewrite E.
  - rewrite (bool_decide_eq_false_2 (x = r)) by done.
    destruct (_ && _); [|done]. by rewrite fn_lookup_insert_ne.
Qed.

Lemma due_poll_step clk h r x : due clk (poll_step clk h r x) = due clk (h x).
Proof. rewrite poll_step_lookup. case_bool_decide; [apply due_polled|done]. Qed.

Lemma on_activity_is_due_eq r w :
  on_activity r is_due w =
    (Ok (due (scheduler.clock w) (heap w r)),
     mkWorld (<[r := polled (scheduler.clock w) (heap w r)]> (heap w)) (sched w)
       (scheduler.clock w) (log w) (threads w)).
Proof. unfold on_activity. rewrite is_due_eq. cbn. by rewrite app_nil_r. Qed.

Lemma poll_all_cons clk r l h :
  poll_all clk (r :: l) h = poll_all clk l (poll_step clk h r).
Proof. reflexivity. Qed.

Lemma collect_due_eq l acc w :
  collect_due l acc w =
    (Ok (acc ++ List.filter (fun r => due (scheduler.clock w) (heap w r)) l),
     mkWorld (poll_all (scheduler.clock w) l (heap w)) (sched w)
       (scheduler.clock w) (log w) (threads w)).
Proof.
  revert acc w. induction l as [|r l IH]; intros acc w.
  - destruct w. cbn. by rewrite app_nil_r.
  - cbn [collect_due List.filter]. unfold bind at 1. unfold deref at 1. cbv beta iota.
    rewrite poll_all_cons.
    assert (Hf : List.filter (fun x => due (scheduler.clock w) (poll_step (scheduler.clock w) (heap w) r x)) l
                 = List.filter (fun x => due (scheduler.clock w) (heap w x)) l).
    { apply List.filter_ext. intros x. apply due_poll_step. }
    destruct (enabled (config (heap w r))) eqn:Ee; cbn [negb].
    2:{ rewrite IH. unfold due at 2, poll_step. rewrite Ee. reflexivity. }
    destruct (bool_decide (state (heap w r) = DISABLED)) eqn:Ed.
    { rewrite IH. unfold due at 2, poll_step. rewrite Ee, Ed. reflexivity. }
    unfold bind at 1. rewrite on_activity_is_due_eq.
    assert (Hp : poll_step (scheduler.clock w) (heap w) r
                 = <[r := polled (scheduler.clock w) (heap w r)]> (heap w)).
    { unfold poll_step. by rewrite Ee, Ed. }
    rewrite <- Hp.
    destruct (due (scheduler.clock w) (heap w r)) eqn:Edue.
    + rewrite IH. cbn [heap sched scheduler.clock log threads].
      rewrite Hf, <- app_assoc. reflexivity.
    + rewrite IH. cbn [heap sched scheduler.clock log threads].
      rewrite Hf. reflexivity.
Qed.

Lemma poll_all_lookup clk l h x :
  poll_all clk l h x = if bool_decide (x ∈ l) then polled clk (h x) else h x.
Proof.
  revert h. induction l as [|r l IH]; intros h; [done|].
  rewrite poll_all_cons, IH, poll_step_lookup.
  destruct (decide (x = r)) as [->|Hne].
  - rewrite (bool_decide_eq_true_2 (r = r)) by done.
    rewrite (bool_decide_eq_true_2 (r ∈ r :: l)) by set_solver.
    case_bool_decide; [apply polled_polled|done].
  - rewrite (bool_decide_eq_false_2 (x = r)) by done.
    rewrite (bool_decide_ext (x ∈ l) (x ∈ r :: l)) by set_solver. done.
Qed.

(** [sort_by] sorts: its result is a permutation, in ascending order of
    the key; [head_sort_by] below is what stability gives for the head. *)
Lemma insert_by_Permutation key x l : insert_by key x l ≡ₚ x :: l.
Proof.
  induction l as [|y l IH]; [done|]. cbn.
  destruct (key x <=? key y); [done|]. rewrite IH. apply Permutation_swap.
Qed.

Lemma sort_by_Permutation key l : sort_by key l ≡ₚ l.
Proof.
  unfold sort_by. induction l as [|x l IH]; [done|]. cbn.
  by rewrite insert_by_Permutation, IH.
Qed.

Lemma insert_by_Sorted key x l :
  Sorted (fun a b => key a <= key b) l ->
  Sorted (fun a b => key a <= key b) (insert_by key x l).
Proof.
  induction 1 as [|y l Hs IH Hhd]; cbn.
  - by repeat constructor.
  - destruct (key x <=? key y) eqn:E.
    + apply Z.leb_le in E. by repeat constructor.
    + apply Z.leb_gt in E. constructor; [done|].
      destruct Hhd as [|z l Hyz]; cbn in *.
      * constructor. lia.
      * destruct (key x <=? key z); constructor; [lia|done].
Qed.

Lemma sort_by_Sorted key l : Sorted (fun a b => key a <= key b) (sort_by key l).
Proof.
  unfold sort_by. induction l as [|x l IH]; cbn; [constructor|].
  by apply insert_by_Sorted.
Qed.

Lemma insert_by_head key x l :
  head (insert_by key x l) =
    match head l with
    | Some y => if key x <=? key y then Some x else Some y
    | None => Some x
    end.
Proof. destruct l as [|y l]; [done|]. cbn. by destruct (key x <=? key y). Qed.

Lemma head_sort_by key l :
  match head (sort_by key l) with
  | Some r => first_lowest key l r
  | None => l = []
  end.
Proof.
  induction l as [|x l IH]; [done|].
  unfold sort_by in *. cbn [foldr]. rewrite insert_by_head.
  destruct (head (foldr (insert_by key) [] l)) as [y|].
  - destruct IH as (l1 & l2 & -> & H1 & H2).
    destruct (key x <=? key y) eqn:E.
    + apply Z.leb_le in E. exists [], (l1 ++ y :: l2). split; [done|]. split; [done|].
      apply Forall_app. split.
      * eapply Forall_impl; [exact H1|]. cbn. intros. lia.
      * constructor; [done|]. eapply Forall_impl; [exact H2|]. cbn. intros. lia.
    + apply Z.leb_gt in E. exists (x :: l1), l2. split; [done|]. split; [|done].
      by constructor.
  - subst l. exists [], []. by repeat split.
Qed.

Lemma first_lowest_unique key l r r' :
  first_lowest key l r -> first_lowest key l r' -> r = r'.
Proof.
  intros (l1 & l2 & Hl & H1 & H2) (l1' & l2' & Heq & H1' & H2'). subst l.
  revert l1' Heq H1'. induction l1 as [|y l1 IH]; intros [|y' l1'] Heq H1'.
  - by injection Heq.
  - cbn in Heq. injection Heq as Hr Hl2. subst y' l2.
    apply Forall_cons in H1' as [Hlt _].
    apply Forall_app in H2 as [_ H2]. apply Forall_cons in H2 as [Hle _]. lia.
  - cbn in Heq. injection Heq as Hr Hl2. subst y l2'.
    apply Forall_cons in H1 as [Hlt _].
    apply Forall_app in H2' as [_ H2']. apply Forall_cons in H2' as [Hle _]. lia.
  - cbn in Heq. injection Heq as Hy Heq. apply Forall_cons in H1 as [_ H1].
    apply Forall_cons in H1' as [_ H1']. by eapply IH.
Qed.

Lemma sort_by_ext key key' l :
  (forall x, key x = key' x) -> sort_by key l = sort_by key' l.
Proof.
  intros H. unfold sort_by. induction l as [|x l IH]; [done|]. cbn. rewrite IH.
  generalize (foldr (insert_by key') [] l). intros m.
  induction m as [|y m IHm]; [done|]. cbn. by rewrite !H, IHm.
Qed.

Lemma poll_all_priority clk l h x :
  priority (config (poll_all clk l h x)) = priority (config (h x)).
Proof.
  rewrite poll_all_lookup. case_bool_decide; [|done].
  unfold polled. destruct (_ && _); [|done]. by destruct (next_execution (h x)).
Qed.

Lemma get_next_due_activity_eq w :
  _get_next_due_activity w =
    (Ok (head (sort_by (priority_of w) (candidates w))), polled_world w).
Proof.
  unfold _get_next_due_activity. unfold bind at 1. unfold scheduler.this at 1.
  cbv beta iota. unfold bind at 1. rewrite collect_due_eq. cbn [app].
  fold (candidates w). fold (polled_world w).
  destruct (candidates w) as [|r l] eqn:E; [reflexivity|].
  sexec. f_equal. f_equal. f_equal. apply sort_by_ext. intros x.
  unfold priority_of, polled_world. cbn [heap]. apply poll_all_priority.
Qed.

Lemma sleep_eq w :
  sleep w = if check_interval_seconds (sched w) <? 0 then (Raise, w)
            else (Ok tt, slept w).
Proof. unfold sleep, slept. sexec. by destruct (_ <? 0). Qed.

Lemma tick_eq phases w :
  tick phases w =
    match head (sort_by (priority_of w) (candidates w)) with
    | Some r => (Ok tt, executed (phases r) r (polled_world w))
    | None => sleep (polled_world w)
    end.
Proof.
  unfold tick, try_except. unfold bind at 1. rewrite get_next_due_activity_eq.
  destruct (head _) as [r|].
  - rewrite execute_activity_eq. reflexivity.
  - rewrite sleep_eq. destruct (_ <? 0) eqn:E; [|reflexivity].
    cbv beta iota. rewrite sleep_eq. by rewrite E.
Qed.

Lemma executed_heap_other ph r w r' :
  r' <> r -> heap (executed ph r w) r' = heap w r'.
Proof. intros Hne. unfold executed, ran. cbn. by rewrite fn_lookup_insert_ne. Qed.

Lemma executed_heap_self ph r w :
  heap (executed ph r w) r =
    self (snd (run ph (mkEnv (heap w r) (scheduler.clock w) []))).
Proof. unfold executed, ran. rewrite run_eq. cbn. by rewrite fn_lookup_insert. Qed.

Lemma run_result_clock ph e : activity.clock e <= activity.clock (snd (run_result ph e)).
Proof. destruct e as [a c evs]. cbn [snd activity.clock]. run_cases ph a; lia. Qed.

Lemma executed_clock ph r w : scheduler.clock w <= scheduler.clock (executed ph r w).
Proof.
  unfold executed, ran. cbn.
  apply (run_result_clock ph (mkEnv (heap w r) (scheduler.clock w) [])).
Qed.

Lemma executed_activities ph r w :
  _activities (sched (executed ph r w)) = _activities (sched w) /\
  _activities_by_id (sched (executed ph r w)) = _activities_by_id (sched w).
Proof. unfold executed, ran, counted. cbn. by destruct (fst _). Qed.

Lemma executed_counters ph r w :
  let b := fst (run_result ph (mkEnv (heap w r) (scheduler.clock w) [])) in
  let s := sched w in
  let s' := sched (executed ph r w) in
  scheduler.total_executions s' = scheduler.total_executions s + 1 /\
  scheduler.successful_executions s'
  = scheduler.successful_executions s + (if b then 1 else 0) /\
  scheduler.failed_executions s'
  = scheduler.failed_executions s + (if b then 0 else 1) /\
  _current_activity s' = None.
Proof.
  unfold executed, ran, counted. cbn [fst snd heap sched scheduler.clock with_sched scheduler.emit].
  destruct (fst (run_result ph _)); cbn; split_and!; try done; lia.
Qed.

Lemma due_mono clk clk' a :
  due clk a = true -> clk <= clk' -> due clk' (polled clk a) = true.
Proof.
  unfold due, polled. intros Hd Hle.
  destruct (enabled (config a) && negb (bool_decide (state a = DISABLED))) eqn:E;
    [|discriminate].
  cbn [andb] in Hd. apply Z.geb_le in Hd.
  destruct (next_execution a) as [n|] eqn:En.
  - rewrite E, En. cbn [andb]. apply Z.geb_le. lia.
  - cbn [config set_next_execution state next_execution]. rewrite E.
    cbn [andb]. apply Z.geb_le. lia.
Qed.

Lemma completions_app tr1 tr2 :
  completions (tr1 ++ tr2) = completions tr1 ++ completions tr2.
Proof. apply omap_app. Qed.

Lemma completions_notified o n a : completions (notified o n a) = [].
Proof. unfold notified. by destruct (_ && _). Qed.

Lemma completions_set o n tr : completions (StateSet o n :: tr) = completions tr.
Proof. reflexivity. Qed.

Lemma skipped_run ph e :
  truth (check_prerequisites ph) = false ->
  fst (run ph e) = Ok false /\
  self (snd (run ph e)) = set_state SCHEDULED (self e) /\
  exists tr, events (snd (run ph e)) = events e ++ tr /\ completions tr = [].
Proof.
  destruct e as [a c evs]. intros Hc. rewrite run_eq.
  unfold run_result, run_body, after_check. rewrite Hc. cbn [negb fst snd].
  unfold finally_. act_simpl. decide_state. act_simpl.
  split; [done|]. split; [done|].
  rewrite <- ?app_assoc. eexists. split; [reflexivity|].
  rewrite ?completions_app, ?completions_set, ?completions_notified. reflexivity.
Qed.

(** C6, as amended.  A run whose prerequisite check returns false (or
    raises) returns false and changes nothing of the task but its state,
    which ends as [SCHEDULED]: counters, retry count, times and
    configuration are as before, and the completion callback is not called.
    When the scheduler drives that run through [_execute_activity], the
    task is changed in the same way, no other task is touched, and the
    scheduler's own [total_executions] and [failed_executions] each grow by
    one. *)
Theorem C6_prerequisite_skip (ph : Phases) (e : Env) (r : ref) (w : World) :
  truth (check_prerequisites ph) = false ->
  (let a := self e in
   let a' := self (snd (run ph e)) in
   fst (run ph e) = Ok false /\
   a' = set_state SCHEDULED a /\
   state a' = SCHEDULED /\
   activity.total_executions a' = activity.total_executions a /\
   activity.failed_executions a' = activity.failed_executions a /\
   activity.successful_executions a' = activity.successful_executions a /\
   retry_count a' = retry_count a /\
   next_execution a' = next_execution a /\
   last_execution a' = last_execution a /\
   total_execution_time_seconds a' = total_execution_time_seconds a /\
   average_execution_time_seconds a' = average_execution_time_seconds a /\
   config a' = config a /\
   exists tr, events (snd (run ph e)) = events e ++ tr /\ completions tr = []) /\
  (let w' := snd (_execute_activity ph r w) in
   heap w' r = set_state SCHEDULED (heap w r) /\
   (forall r', r' <> r -> heap w' r' = heap w r') /\
   scheduler.total_executions (sched w')
   = scheduler.total_executions (sched w) + 1 /\
   scheduler.failed_executions (sched w')
   = scheduler.failed_executions (sched w) + 1 /\
   scheduler.successful_executions (sched w')
   = scheduler.successful_executions (sched w)).
Proof.
  intros Hc. split.
  - destruct (skipped_run ph e Hc) as (Hr & Ha & Htr). cbn zeta.
    rewrite Ha. split_and!; done.
  - cbn zeta. rewrite execute_activity_eq. cbn [snd].
    pose proof (executed_counters ph r w) as Hcnt. cbn zeta in Hcnt.
    destruct (skipped_run ph (mkEnv (heap w r) (scheduler.clock w) []) Hc)
      as (Hr & Ha & _).
    assert (Hb : fst (run_result ph (mkEnv (heap w r) (scheduler.clock w) [])) = false).
    { rewrite run_eq in Hr. by injection Hr. }
    rewrite Hb in Hcnt.
    rewrite executed_heap_self, Ha.
    split_and!; try done; try lia.
    intros r' Hne. by apply executed_heap_other.
Qed.

Lemma C6_prerequisite_skip_witness :
  truth (check_prerequisites skip_phases) = false /\
  heap (snd (_execute_activity skip_phases 0%nat one_registered)) 0%nat
  = set_state SCHEDULED (heap one_registered 0%nat) /\
  scheduler.failed_executions (sched (snd (_execute_activity skip_phases 0%nat one_registered)))
  = scheduler.failed_executions (sched one_registered) + 1.
Proof.
  pose proof (C6_prerequisite_skip skip_phases (mkEnv a0 0 []) 0%nat one_registered eq_refl)
    as (_ & H1 & _ & _ & H2 & _).
  split; [reflexivity|]. split; [exact H1|exact H2].
Defined.

Lemma C6_counterexample :
  fst (_get_next_due_activity one_registered) = Ok (Some 0%nat) /\
  truth (check_prerequisites skip_phases) = false /\
  scheduler.failed_executions (sched one_registered) = 0 /\
  scheduler.failed_executions (sched (snd (tick (fun _ => skip_phases) one_registered))) = 1.
Proof. vm_compute. repeat split; reflexivity. Qed.

Lemma elem_of_candidates r w :
  r ∈ candidates w <->
  r ∈ _activities (sched w) /\ due (scheduler.clock w) (heap w r) = true.
Proof. unfold candidates. rewrite !list_elem_of_In. apply filter_In. Qed.

Lemma run_result_priority ph e :
  priority (config (self (snd (run_result ph e)))) = priority (config (self e)).
Proof. destruct e as [a c evs]. cbn [snd self]. run_cases ph a; reflexivity. Qed.

Lemma polled_priority clk a : priority (config (polled clk a)) = priority (config a).
Proof. unfold polled. destruct (_ && _); [|done]. by destruct (next_execution a). Qed.

(** What one iteration of the loop changes. *)
Section tick_facts.
Variable phases : ref -> Phases.
Variable w : World.

Lemma tick_activities :
  _activities (sched (snd (tick phases w))) = _activities (sched w).
Proof using Type.
  rewrite tick_eq. destruct (head _) as [r|].
  - cbn [snd]. by destruct (executed_activities (phases r) r (polled_world w)) as [-> _].
  - rewrite sleep_eq. by destruct (_ <? 0).
Qed.

Lemma tick_clock : scheduler.clock w <= scheduler.clock (snd (tick phases w)).
Proof using Type.
  rewrite tick_eq. destruct (head _) as [r|].
  - cbn [snd]. apply (executed_clock (phases r) r (polled_world w)).
  - rewrite sleep_eq. destruct (_ <? 0) eqn:E;
      cbn [snd polled_world slept scheduler.advance scheduler.clock sched]; [lia|].
    apply Z.ltb_ge in E. cbn [polled_world sched] in E. unfold SECOND. lia.
Qed.

Lemma tick_heap_other r' :
  head (sort_by (priority_of w) (candidates w)) <> Some r' ->
  heap (snd (tick phases w)) r' =
    if bool_decide (r' ∈ _activities (sched w))
    then polled (scheduler.clock w) (heap w r') else heap w r'.
Proof using Type.
  intros Hne. rewrite <- poll_all_lookup.
  rewrite tick_eq. destruct (head _) as [r|].
  - cbn [snd]. rewrite executed_heap_other by congruence. reflexivity.
  - rewrite sleep_eq. by destruct (_ <? 0).
Qed.

Lemma tick_heap_selected r :
  head (sort_by (priority_of w) (candidates w)) = Some r ->
  fst (tick phases w) = Ok tt /\
  heap (snd (tick phases w)) r =
    self (snd (run (phases r)
                 (mkEnv (polled (scheduler.clock w) (heap w r)) (scheduler.clock w) []))) /\
  scheduler.total_executions (sched (snd (tick phases w)))
  = scheduler.total_executions (sched w) + 1.
Proof using Type.
  intros Hn. rewrite tick_eq. rewrite Hn. cbn [fst snd].
  split; [done|]. rewrite executed_heap_self.
  destruct (executed_counters (phases r) r (polled_world w)) as (Ht & _).
  split; [|exact Ht].
  cbn [polled_world heap scheduler.clock]. rewrite poll_all_lookup.
  assert (Hin : r ∈ candidates w).
  { pose proof (head_sort_by (priority_of w) (candidates w)) as H.
    rewrite Hn in H. destruct H as (l1 & l2 & -> & _). set_solver. }
  apply elem_of_candidates in Hin as [Hin _].
  by rewrite bool_decide_eq_true_2.
Qed.

Lemma tick_priority x : priority_of (snd (tick phases w)) x = priority_of w x.
Proof using Type.
  unfold priority_of.
  destruct (decide (head (sort_by (priority_of w) (candidates w)) = Some x)) as [Hn|Hn].
  - destruct (tick_heap_selected x Hn) as (_ & -> & _).
    rewrite run_eq. cbn [snd]. rewrite run_result_priority. apply polled_priority.
  - rewrite (tick_heap_other x Hn). case_bool_decide; [apply polled_priority|done].
Qed.

Lemma tick_remains_due r' :
  r' ∈ candidates w ->
  head (sort_by (priority_of w) (candidates w)) <> Some r' ->
  r' ∈ candidates (snd (tick phases w)).
Proof using Type.
  intros Hin Hne. apply elem_of_candidates in Hin as [Hin Hd].
  apply elem_of_candidates. rewrite tick_activities. split; [done|].
  rewrite (tick_heap_other r' Hne), bool_decide_eq_true_2 by done.
  apply due_mono; [done|apply tick_clock].
Qed.

End tick_facts.

Lemma next_due_fst w :
  fst (_get_next_due_activity w) = Ok (head (sort_by (priority_of w) (candidates w))).
Proof. by rewrite get_next_due_activity_eq. Qed.

Lemma selection_iff w r :
  head (sort_by (priority_of w) (candidates w)) = Some r <->
  first_lowest (priority_of w) (candidates w) r.
Proof.
  pose proof (head_sort_by (priority_of w) (candidates w)) as H.
  destruct (head _) as [r0|] eqn:E.
  - split; [by intros [= <-]|]. intros Hr. f_equal. by eapply first_lowest_unique.
  - split; [done|]. intros (l1 & l2 & Hl & _). rewrite H in Hl. by destruct l1.
Qed.

Lemma selection_none w :
  head (sort_by (priority_of w) (candidates w)) = None <-> candidates w = [].
Proof.
  pose proof (head_sort_by (priority_of w) (candidates w)) as H.
  destruct (head _) as [r0|] eqn:E.
  - split; [done|]. intros Hnil. destruct H as (l1 & l2 & Hl & _).
    rewrite Hnil in Hl. by destruct l1.
  - done.
Qed.

(** Two candidates of different priority and nothing else registered. *)
Lemma selection_of_two w ra rb :
  (forall r, r ∈ _activities (sched w) -> r = ra \/ r = rb) ->
  ra ∈ candidates w ->
  (rb ∈ candidates w -> priority_of w ra < priority_of w rb) ->
  head (sort_by (priority_of w) (candidates w)) = Some ra.
Proof.
  intros Hall Ha Hlt.
  pose proof (head_sort_by (priority_of w) (candidates w)) as H.
  destruct (head _) as [r|] eqn:E.
  - destruct H as (l1 & l2 & Hl & H1 & H2).
    assert (Hr : r ∈ candidates w) by (rewrite Hl; set_solver).
    destruct (Hall r) as [->| ->]; [by apply elem_of_candidates in Hr as [? _]|done|].
    exfalso. specialize (Hlt Hr).
    rewrite Hl in Ha. apply elem_of_app in Ha as [Ha|Ha].
    + rewrite Forall_forall in H1. specialize (H1 _ Ha). lia.
    + apply elem_of_cons in Ha as [->|Ha]; [lia|].
      rewrite Forall_forall in H2. specialize (H2 _ Ha). lia.
  - rewrite H in Ha. by apply elem_of_nil in Ha.
Qed.

(** C7, as amended.  [_get_next_due_activity] returns [None] exactly when
    no registered task is enabled, not [DISABLED] and due, and otherwise the
    first task in registration order among the due ones of lowest priority
    number.  [tick] runs that task and no other: every other task is as
    [is_due()] left it, and every other due task is still due after the
    tick.  With two due tasks of priorities 2 and 7 and nothing else
    registered, the first tick selects priority 2; the next selection is
    priority 7 if the priority-2 task is no longer due, and priority 2 again
    if it still is. *)
Theorem C7_tick_selects_one (phases : ref -> Phases) (w : World) :
  let w' := snd (tick phases w) in
  exists next : option ref,
    fst (_get_next_due_activity w) = Ok next /\
    (next = None <-> candidates w = []) /\
    (forall r, next = Some r <-> first_lowest (priority_of w) (candidates w) r) /\
    (forall r, next = Some r ->
       fst (tick phases w) = Ok tt /\
       heap w' r =
         self (snd (run (phases r)
                      (mkEnv (polled (scheduler.clock w) (heap w r))
                         (scheduler.clock w) []))) /\
       scheduler.total_executions (sched w')
       = scheduler.total_executions (sched w) + 1) /\
    (forall r', next <> Some r' ->
       heap w' r' = if bool_decide (r' ∈ _activities (sched w))
                    then polled (scheduler.clock w) (heap w r') else heap w r') /\
    (forall r', r' ∈ candidates w -> next <> Some r' -> r' ∈ candidates w') /\
    (forall r2 r7,
       r2 ∈ candidates w -> r7 ∈ candidates w ->
       priority_of w r2 = 2 -> priority_of w r7 = 7 ->
       (forall r, r ∈ _activities (sched w) -> r = r2 \/ r = r7) ->
       next = Some r2 /\
       r7 ∈ candidates w' /\
       (r2 ∉ candidates w' -> fst (_get_next_due_activity w') = Ok (Some r7)) /\
       (r2 ∈ candidates w' -> fst (_get_next_due_activity w') = Ok (Some r2))).
Proof.
  intros w'. exists (head (sort_by (priority_of w) (candidates w))).
  split; [apply next_due_fst|].
  split; [apply selection_none|].
  split; [apply selection_iff|].
  split; [apply tick_heap_selected|].
  split; [apply tick_heap_other|].
  split; [apply tick_remains_due|].
  intros r2 r7 H2 H7 Hp2 Hp7 Hall.
  assert (Hsel : head (sort_by (priority_of w) (candidates w)) = Some r2).
  { apply (selection_of_two w r2 r7); [done|done|]. intros _. lia. }
  assert (Hne : r2 <> r7) by (intros ->; lia).
  assert (H7' : r7 ∈ candidates w').
  { apply tick_remains_due; [done|]. rewrite Hsel. congruence. }
  assert (Hall' : forall r, r ∈ _activities (sched w') -> r = r2 \/ r = r7).
  { intros r. subst w'. rewrite tick_activities. apply Hall. }
  split; [done|]. split; [done|]. split.
  - intros Hn2. rewrite next_due_fst. f_equal.
    apply (selection_of_two w' r7 r2); [|done|done].
    intros r Hr. destruct (Hall' r Hr); auto.
  - intros Hd2. rewrite next_due_fst. f_equal.
    apply (selection_of_two w' r2 r7); [done|done|]. intros _.
    subst w'. rewrite !tick_priority. lia.
Qed.

Lemma C7_tick_selects_one_witness :
  fst (_get_next_due_activity two_due) = Ok (Some 1%nat) /\
  fst (_get_next_due_activity (snd (tick (fun _ => ok_phases) two_due)))
  = Ok (Some 0%nat).
Proof.
  destruct (C7_tick_selects_one (fun _ => ok_phases) two_due)
    as (next & Hnext & _ & _ & _ & _ & _ & Htwo).
  destruct (Htwo 1%nat 0%nat) as (Hsel & _ & Hthen & _).
  - apply (bool_decide_unpack _). vm_compute. exact I.
  - apply (bool_decide_unpack _). vm_compute. exact I.
  - reflexivity.
  - reflexivity.
  - intros r Hr. apply (bool_decide_unpack _).
    assert (Hl : _activities (sched two_due) = [0%nat; 1%nat]) by reflexivity.
    rewrite Hl in Hr.
    apply elem_of_cons in Hr as [->|Hr]; [vm_compute; exact I|].
    apply elem_of_cons in Hr as [->|Hr]; [vm_compute; exact I|].
    by apply elem_of_nil in Hr.
  - split.
    + rewrite Hnext. f_equal. exact Hsel.
    + apply Hthen. apply (bool_decide_unpack _). vm_compute. exact I.
Defined.

Lemma C7_counterexample :
  fst (_get_next_due_activity two_due) = Ok (Some 1%nat) /\
  candidates (snd (tick (fun _ => skip_phases) two_due)) = [0%nat; 1%nat] /\
  fst (_get_next_due_activity (snd (tick (fun _ => skip_phases) two_due)))
  = Ok (Some 1%nat).
Proof. vm_compute. repeat split; reflexivity. Qed.

Lemma run_consistent ph e : consistent (self (snd (run ph e))).
Proof.
  destruct e as [a c evs]. rewrite run_eq. cbn [snd]. unfold consistent.
  run_cases ph a; try discriminate; reflexivity.
Qed.

Lemma reset_statistics_eq e :
  reset_statistics e =
    (Ok tt,
     mkEnv (set_retry_count 0
              (set_average_execution_time_seconds 0%Q
                 (set_total_execution_time_seconds 0%Q
                    (activity.set_failed_executions 0
                       (activity.set_successful_executions 0
                          (activity.set_total_executions 0 (self e)))))))
       (activity.clock e) (events e)).
Proof. by destruct e. Qed.

Lemma force_run_now_eq e :
  force_run_now e =
    (Ok tt, mkEnv (set_next_execution (Some (activity.clock e)) (self e))
              (activity.clock e) (events e)).
Proof. by destruct e. Qed.

Lemma polled_state clk a :
  state (polled clk a) = state a /\ config (polled clk a) = config a.
Proof. unfold polled. destruct (_ && _); [|done]. by destruct (next_execution a). Qed.

(** Only [enable] sets [enabled]: a run keeps a task that is not enabled
    so. *)
Lemma run_keeps_not_enabled ph e :
  enabled (config (self e)) = false ->
  enabled (config (self (snd (run ph e)))) = false.
Proof.
  destruct e as [a c evs]. rewrite run_eq. cbn [snd self]. intros H.
  run_cases ph a; done.
Qed.

(** C8.  [consistent]: a [DISABLED] task has [enabled = false].  [run]
    establishes it, and [enable], [disable], [reset_statistics],
    [force_run_now], [is_due] and the selection of the scheduler keep it.
    A task that is [DISABLED], or not enabled, is not reported due by
    [is_due], which leaves it as it is; it is no candidate and it is not
    selected, and the selection leaves it as it is.  [reset_statistics] and
    [force_run_now] keep it [DISABLED], and they and [run] and [disable]
    keep it not enabled; [enable] gives [retry_count = 0], the state
    [SCHEDULED] and [enabled = true]. *)
Theorem C8_disabled_invariant (ph : Phases) (e : Env) (w : World) :
  (consistent (self e) ->
   consistent (self (snd (run ph e))) /\
   consistent (self (snd (enable e))) /\
   consistent (self (snd (disable e))) /\
   consistent (self (snd (reset_statistics e))) /\
   consistent (self (snd (force_run_now e))) /\
   consistent (self (snd (is_due e)))) /\
  (state (self e) = DISABLED \/ enabled (config (self e)) = false ->
   is_due e = (Ok false, e)) /\
  (state (self e) = DISABLED ->
   state (self (snd (reset_statistics e))) = DISABLED /\
   state (self (snd (force_run_now e))) = DISABLED) /\
  (enabled (config (self e)) = false ->
   enabled (config (self (snd (run ph e)))) = false /\
   enabled (config (self (snd (disable e)))) = false /\
   enabled (config (self (snd (reset_statistics e)))) = false /\
   enabled (config (self (snd (force_run_now e)))) = false) /\
  (retry_count (self (snd (enable e))) = 0 /\
   state (self (snd (enable e))) = SCHEDULED /\
   enabled (config (self (snd (enable e)))) = true) /\
  ((forall r, consistent (heap w r)) ->
   forall r, consistent (heap (snd (_get_next_due_activity w)) r)) /\
  (forall r,
     state (heap w r) = DISABLED \/ enabled (config (heap w r)) = false ->
     fst (_get_next_due_activity w) <> Ok (Some r) /\
     (r ∉ candidates w) /\
     heap (snd (_get_next_due_activity w)) r = heap w r).
Proof.
  assert (Hoff : forall a : Activity,
            state a = DISABLED \/ enabled (config a) = false ->
            enabled (config a) && negb (bool_decide (state a = DISABLED)) = false).
  { intros a [Hd| ->]; [|done].
    by rewrite (bool_decide_eq_true_2 _ Hd), andb_false_r. }
  split; [|split; [|split; [|split; [|split; [|split]]]]].
  - intros Hc. split; [apply run_consistent|].
    rewrite enable_eq, disable_eq, reset_statistics_eq, force_run_now_eq, is_due_eq.
    destruct e as [a c evs]. unfold consistent in *. act_simpl.
    split_and!; try done.
    destruct (polled_state c a) as [-> ->]. done.
  - intros Hd. rewrite is_due_eq.
    destruct e as [a c evs]. act_simpl. unfold due, polled.
    by rewrite (Hoff a Hd).
  - intros Hd. rewrite reset_statistics_eq, force_run_now_eq. by destruct e.
  - intros He. split; [by apply run_keeps_not_enabled|].
    rewrite disable_eq, reset_statistics_eq, force_run_now_eq. by destruct e.
  - rewrite enable_eq. by destruct e.
  - intros Hc r. rewrite get_next_due_activity_eq. cbn [snd polled_world heap].
    rewrite poll_all_lookup. case_bool_decide; [|done].
    unfold consistent. destruct (polled_state (scheduler.clock w) (heap w r)) as [-> ->].
    apply Hc.
  - intros r Hd.
    assert (Hnd : due (scheduler.clock w) (heap w r) = false).
    { unfold due. by rewrite (Hoff _ Hd). }
    assert (Hnc : r ∉ candidates w).
    { rewrite elem_of_candidates. intros [_ H]. congruence. }
    split_and!; [|done|].
    + rewrite next_due_fst. intros [= Hsel]. apply selection_iff in Hsel.
      destruct Hsel as (l1 & l2 & Hl & _). apply Hnc. rewrite Hl. set_solver.
    + rewrite get_next_due_activity_eq. cbn [snd polled_world heap].
      rewrite poll_all_lookup. case_bool_decide; [|done].
      unfold polled. by rewrite (Hoff _ Hd).
Qed.

Lemma C8_disabled_invariant_witness :
  consistent (self (mkEnv a0 0 [])) /\
  consistent (self (snd (run fail_phases (mkEnv a0 0 [])))) /\
  (forall r, consistent (heap (snd (_get_next_due_activity two_due)) r)) /\
  state (self (runs l2 (mkEnv a0 0 []))) = DISABLED /\
  is_due (runs l2 (mkEnv a0 0 [])) = (Ok false, runs l2 (mkEnv a0 0 [])).
Proof.
  assert (H0 : consistent (self (mkEnv a0 0 []))) by (intros H; discriminate H).
  assert (H1 : forall r, consistent (heap two_due r)).
  { intros [|[|r]] H; discriminate H. }
  assert (H2 : state (self (runs l2 (mkEnv a0 0 []))) = DISABLED) by reflexivity.
  pose proof (C8_disabled_invariant fail_phases (mkEnv a0 0 []) two_due)
    as (Ha & _ & _ & _ & _ & Hb & _).
  pose proof (C8_disabled_invariant fail_phases (runs l2 (mkEnv a0 0 [])) two_due)
    as (_ & Hc & _).
  split; [exact H0|]. split; [exact (proj1 (Ha H0))|]. split; [exact (Hb H1)|].
  split; [exact H2|]. exact (Hc (or_introl H2)).
Defined.

(** C9.  With an activity in flight, or an id that is not registered,
    [run_activity_now] returns false and changes nothing: no thread is
    started and no task or counter is touched.  It returns true exactly
    when no activity is in flight and the id is found; it then starts one
    thread, and that thread is [_execute_activity] on the activity found. *)
Theorem C9_run_activity_now (activity_id : string) (ph : Phases) (w : World) :
  (_current_activity (sched w) <> None \/
   _activities_by_id (sched w) !! activity_id = None ->
   run_activity_now activity_id w = (Ok false, w)) /\
  (forall r, _current_activity (sched w) = None ->
     _activities_by_id (sched w) !! activity_id = Some r ->
     run_activity_now activity_id w = (Ok true, spawn r w) /\
     (threads w = [] ->
      run_thread ph (spawn r w) = _execute_activity ph r w)) /\
  (fst (run_activity_now activity_id w) = Ok true <->
   _current_activity (sched w) = None /\
   is_Some (_activities_by_id (sched w) !! activity_id)).
Proof.
  unfold run_activity_now, get_activity. sexec.
  destruct (_activities_by_id (sched w) !! activity_id) as [r|] eqn:Eid;
    destruct (_current_activity (sched w)) as [cur|] eqn:Ecur.
  - split; [done|]. split; [done|]. split; [done|]. by intros [[=] _].
  - split; [by intros [?|?]|]. split.
    + intros r' _ [= <-]. split; [done|]. intros Hth.
      destruct w as [h s c lg th]. cbn in Hth. subst th.
      unfold run_thread. sexec. reflexivity.
    + split; [|done]. intros _. split; [done|]. by eexists.
  - split; [done|]. split; [done|]. split; [done|]. by intros [[=] _].
  - split; [done|]. split; [done|]. split; [done|]. by intros [_ [? [=]]].
Qed.

Lemma C9_run_activity_now_witness :
  run_activity_now "alliance_help" one_registered
  = (Ok true, spawn 0%nat one_registered) /\
  run_activity_now "alliance_help"
    (with_sched (set_current_activity (Some 0%nat)) one_registered)
  = (Ok false, with_sched (set_current_activity (Some 0%nat)) one_registered).
Proof.
  split.
  - refine (proj1 (proj1 (proj2 (C9_run_activity_now "alliance_help" fail_phases
                                   one_registered)) 0%nat _ _)); reflexivity.
  - refine (proj1 (C9_run_activity_now "alliance_help" fail_phases
                     (with_sched (set_current_activity (Some 0%nat)) one_registered)) _).
    left. discriminate.
Defined.

Lemma list_remove_last (x y : ref) (l : list ref) :
  x ∉ l -> x <> y -> list_remove x (l ++ [y; x]) = Some (l ++ [y]).
Proof.
  intros Hl Hne. induction l as [|z l IH].
  - cbn. rewrite bool_decide_eq_false_2 by done.
    by rewrite bool_decide_eq_true_2.
  - cbn. rewrite bool_decide_eq_false_2 by set_solver.
    rewrite IH by set_solver. reflexivity.
Qed.

Lemma register_activity_eq r w :
  register_activity r None w =
    if bool_decide (r ∈ _activities (sched w)) then (Ok tt, w)
    else (Ok tt, registered r (derived_id (name (heap w r))) w).
Proof.
  unfold register_activity, registered. sexec.
  destruct (bool_decide _); reflexivity.
Qed.

(** C10.  Two distinct activity objects [r1] and [r2], not registered yet,
    have names that give the same id.  After registering both with their
    derived ids, both are in [_activities] and are candidates of the
    selection when due, and [get_activity] returns [r2].  Registering
    [r1] or [r2] once more changes nothing.  [unregister_activity] removes
    [r2] and the id: [r1] is still in [_activities], no id maps to it, and
    when it is due it is a candidate and the selection returns a task (of a
    priority number not above its own). *)
Theorem C10_same_derived_id (r1 r2 : ref) (w : World) :
  let s := sched w in
  let id := derived_id (name (heap w r1)) in
  let w2 := snd (register_activity r2 None (snd (register_activity r1 None w))) in
  let w3 := snd (unregister_activity id w2) in
  r1 <> r2 ->
  r1 ∉ _activities s ->
  r2 ∉ _activities s ->
  (forall k r, _activities_by_id s !! k = Some r -> r ∈ _activities s) ->
  derived_id (name (heap w r2)) = id ->
  (_activities (sched w2) = _activities s ++ [r1; r2] /\
   fst (get_activity id w2) = Ok (Some r2) /\
   (forall r, due (scheduler.clock w2) (heap w2 r) = true ->
              r = r1 \/ r = r2 -> r ∈ candidates w2)) /\
  register_activity r2 None w2 = (Ok tt, w2) /\
  register_activity r1 None w2 = (Ok tt, w2) /\
  (fst (unregister_activity id w2) = Ok true /\
   _activities (sched w3) = _activities s ++ [r1] /\
   fst (get_activity id w3) = Ok None /\
   (forall k, _activities_by_id (sched w3) !! k <> Some r1) /\
   (due (scheduler.clock w3) (heap w3 r1) = true ->
    r1 ∈ candidates w3 /\
    exists r, fst (_get_next_due_activity w3) = Ok (Some r) /\
              priority_of w3 r <= priority_of w3 r1)).
Proof.
  intros s id w2 w3 Hne H1 H2 Hwf Hid.
  assert (Hw2 : w2 = registered r2 id (registered r1 id w)).
  { subst w2. rewrite (register_activity_eq r1 w).
    rewrite bool_decide_eq_false_2 by done. cbn [snd].
    rewrite register_activity_eq. cbn [registered sched heap _activities set_activities
      set_activities_by_id]. fold s.
    rewrite bool_decide_eq_false_2 by set_solver. cbn [snd].
    rewrite fn_lookup_insert_ne by done. cbn [name set_callbacks]. by rewrite Hid. }
  assert (Hl2 : _activities (sched w2) = _activities s ++ [r1; r2]).
  { rewrite Hw2. cbn. by rewrite <- app_assoc. }
  assert (Hd2 : _activities_by_id (sched w2)
                = <[id := r2]> (<[id := r1]> (_activities_by_id s))).
  { by rewrite Hw2. }
  assert (Hu : unregister_activity id w2
               = (Ok true,
                  with_sched (fun s2 => set_activities_by_id
                                          (delete id (_activities_by_id s2))
                                          (set_activities (_activities s ++ [r1]) s2)) w2)).
  { assert (E : _activities_by_id (sched w2) !! id = Some r2)
      by (by rewrite Hd2, lookup_insert_eq).
    assert (Er : list_remove r2 (_activities (sched w2)) = Some (_activities s ++ [r1]))
      by (rewrite Hl2; by apply list_remove_last).
    unfold unregister_activity. sexec. rewrite E, Er. sexec. reflexivity. }
  assert (Hl3 : _activities (sched w3) = _activities s ++ [r1]).
  { subst w3. by rewrite Hu. }
  assert (Hd3 : _activities_by_id (sched w3) = delete id (_activities_by_id s)).
  { subst w3. rewrite Hu. cbn. rewrite Hd2.
    by rewrite delete_insert_eq, delete_insert_eq. }
  split; [|split; [|split]].
  - split; [done|]. split.
    + unfold get_activity. sexec. by rewrite Hd2, lookup_insert_eq.
    + intros r Hd Hr. apply elem_of_candidates. rewrite Hl2. split; [|done].
      set_solver.
  - rewrite register_activity_eq, bool_decide_eq_true_2; [done|]. rewrite Hl2. set_solver.
  - rewrite register_activity_eq, bool_decide_eq_true_2; [done|]. rewrite Hl2. set_solver.
  - split; [by rewrite Hu|]. split; [done|]. split; [|split].
    + unfold get_activity. sexec. by rewrite Hd3, lookup_delete_eq.
    + intros k. rewrite Hd3. intros Hk.
      apply lookup_delete_Some in Hk as [_ Hk]. apply Hwf in Hk. done.
    + intros Hd.
      assert (Hc : r1 ∈ candidates w3).
      { apply elem_of_candidates. rewrite Hl3. split; [set_solver|done]. }
      split; [done|].
      pose proof (head_sort_by (priority_of w3) (candidates w3)) as Hh.
      rewrite next_due_fst.
      destruct (head _) as [r|].
      * exists r. split; [done|]. destruct Hh as (l1 & l2 & Hl & Hf1 & Hf2).
        rewrite Hl in Hc. apply elem_of_app in Hc as [Hc|Hc].
        -- rewrite Forall_forall in Hf1. specialize (Hf1 _ Hc). lia.
        -- apply elem_of_cons in Hc as [->|Hc]; [lia|].
           rewrite Forall_forall in Hf2. by apply Hf2.
      * rewrite Hh in Hc. by apply elem_of_nil in Hc.
Qed.

Lemma C10_same_derived_id_witness :
  _activities (sched (snd (register_activity 1%nat None
                             (snd (register_activity 0%nat None same_id)))))
  = [0%nat; 1%nat] /\
  fst (get_activity "alliance_help"
         (snd (register_activity 1%nat None
                 (snd (register_activity 0%nat None same_id)))))
  = Ok (Some 1%nat).
Proof.
  assert (Hwf : forall (k : string) (r : ref),
            _activities_by_id (sched same_id) !! k = Some r ->
            r ∈ _activities (sched same_id)).
  { intros k r H. cbn in H. by rewrite lookup_empty in H. }
  pose proof (C10_same_derived_id 0%nat 1%nat same_id) as H.
  cbn zeta in H.
  destruct H as ((Hl & Hg & _) & _); [discriminate| | |exact Hwf|reflexivity|].
  - cbn. apply not_elem_of_nil.
  - cbn. apply not_elem_of_nil.
  - split; [exact Hl|exact Hg].
Defined.

(** * Further properties of [activity.py] *)

Import activity.
Import accounting.

Ltac run_all_cases ph a :=
  unfold run_result, run_body, after_verify, after_execute, after_check;
  destruct (truth (check_prerequisites ph)) eqn:?Hcheck; cbn [negb];
  [ destruct (truth (execute ph)) eqn:?Hexecute; cbn [negb];
    [ destruct (truth (verify_completion ph)) eqn:?Hverify; cbn [negb] | ] | ];
  cbn zeta; unfold failed, failure, finally_;
  repeat match goal with
    | |- context [if ?c =? 0 then _ else _] => destruct (c =? 0) eqn:?Hzero
    | |- context [if ?c >=? ?d then _ else _] => destruct (c >=? d) eqn:?Hretry
    end;
  act_simpl; decide_state; act_simpl.

(** X1.  The counters of an activity add up: [successful_executions] and
    [failed_executions] are not negative and their sum is
    [total_executions].  This holds for a new activity and after
    [reset_statistics], and [run], [enable], [disable], [force_run_now] and
    [is_due] keep it, whatever the phases of the run do. *)
Theorem X1_counters_balanced (ph : Phases) (e : Env) (n : string) (c : ActivityConfig) :
  balanced (__init__ n c) /\
  balanced (self (snd (reset_statistics e))) /\
  (balanced (self e) ->
   balanced (self (snd (run ph e))) /\
   balanced (self (snd (enable e))) /\
   balanced (self (snd (disable e))) /\
   balanced (self (snd (force_run_now e))) /\
   balanced (self (snd (is_due e)))).
Proof.
  split; [by repeat split|]. split.
  { rewrite reset_statistics_eq. by repeat split. }
  intros (Hs & Hf & Ht). split.
  - destruct e as [a c0 evs]. rewrite run_eq. cbn [snd self] in *. unfold balanced.
    run_all_cases ph a; lia.
  - rewrite enable_eq, disable_eq, force_run_now_eq, is_due_eq.
    destruct e as [a c0 evs]. unfold balanced, polled. act_simpl.
    split_and!; try done.
    all: destruct (_ && _); [destruct (next_execution a)|]; act_simpl; done.
Qed.

Lemma X1_counters_balanced_witness :
  balanced (self (snd (run fail_phases (mkEnv a0 0 [])))).
Proof.
  refine (proj1 (proj2 (proj2 (X1_counters_balanced fail_phases (mkEnv a0 0 [])
                                 "Alliance Help" default_config)) _)).
  vm_compute. repeat split; (reflexivity || discriminate).
Defined.

(** X2.  A run never leaves an activity in one of the states it passes
    through: for a counter that is not negative, the state after [run] is
    [SCHEDULED] or [DISABLED], and it is [DISABLED] exactly when the run
    failed (execution or verification returned false or raised) and was the
    last retry, [retry_count + 1 >= max_retries]. *)
Theorem X2_run_final_state (ph : Phases) (e : Env) :
  0 <= total_executions (self e) ->
  let a' := self (snd (run ph e)) in
  (state a' = SCHEDULED \/ state a' = DISABLED) /\
  (state a' = DISABLED <->
   fails ph = true /\ max_retries (config (self e)) <= retry_count (self e) + 1).
Proof.
  destruct e as [a c evs]. cbn [self]. intros Hpos. rewrite run_eq. cbn [snd].
  unfold fails.
  run_cases ph a; cbn zeta; try (apply Z.eqb_eq in Hzero; lia).
  all: try (apply Z.geb_le in Hretry).
  all: try (rewrite Z.geb_leb in Hretry; apply Z.leb_gt in Hretry).
  all: split; [first [left; reflexivity | right; reflexivity]|].
  all: split;
    [ intros H; first [discriminate H | split; [reflexivity | lia]]
    | intros [H1 H2]; cbn in H1; first [discriminate H1 | reflexivity | lia] ].
Qed.

Lemma X2_run_final_state_witness :
  state (self (snd (run fail_phases (mkEnv a0 0 [])))) = SCHEDULED \/
  state (self (snd (run fail_phases (mkEnv a0 0 [])))) = DISABLED.
Proof.
  refine (proj1 (X2_run_final_state fail_phases (mkEnv a0 0 []) _)).
  vm_compute. discriminate.
Defined.

(** X3.  With [max_retries >= 1] an enabled activity always has a retry
    left, [retry_count < max_retries]: a new activity has, [enable],
    [reset_statistics] and [disable] establish it, and [run],
    [force_run_now] and [is_due] keep it, since the failure that uses the
    last retry also clears [enabled]. *)
Theorem X3_enabled_has_retries_left (ph : Phases) (e : Env) (n : string)
  (c : ActivityConfig) :
  (1 <= max_retries c -> retries_left (__init__ n c)) /\
  (1 <= max_retries (config (self e)) ->
   retries_left (self (snd (enable e))) /\
   retries_left (self (snd (reset_statistics e))) /\
   retries_left (self (snd (disable e))) /\
   (retries_left (self e) ->
    retries_left (self (snd (run ph e))) /\
    retries_left (self (snd (force_run_now e))) /\
    retries_left (self (snd (is_due e))))).
Proof.
  split.
  { intros H _. cbn. lia. }
  intros Hm. rewrite enable_eq, reset_statistics_eq, disable_eq, force_run_now_eq, is_due_eq.
  destruct e as [a c0 evs]. unfold retries_left in *. act_simpl.
  split; [intros _; lia|]. split; [intros _; lia|]. split; [discriminate|].
  intros Hl. split; [|split; [done|]].
  - rewrite run_eq. cbn [snd].
    run_cases ph a; cbn zeta; try done; try (intros _; lia).
    all: rewrite Z.geb_leb in Hretry; apply Z.leb_gt in Hretry; intros _; lia.
  - unfold polled. destruct (_ && _); [destruct (next_execution a)|]; act_simpl; done.
Qed.

Lemma X3_enabled_has_retries_left_witness :
  retries_left (self (snd (run fail_phases (mkEnv a0 0 [])))).
Proof.
  assert (H1 : 1 <= max_retries (config (self (mkEnv a0 0 [])))) by (vm_compute; discriminate).
  assert (H2 : retries_left (self (mkEnv a0 0 []))) by (intros _; vm_compute; reflexivity).
  exact (proj1 (proj2 (proj2 (proj2 (proj2
    (X3_enabled_has_retries_left fail_phases (mkEnv a0 0 []) "x" default_config) H1))) H2)).
Defined.

(** X4.  A success gives all retries back.  After a successful run the
    retry count is 0, whatever it was before, so it takes [max_retries]
    failures in a row to disable the activity: after [max_retries - 1]
    failing runs it is [SCHEDULED] and enabled as it was, and the next
    failing run leaves it [DISABLED] and not enabled. *)
Theorem X4_success_restores_retries (ph : Phases) (l : list (N * Phases))
  (x : N * Phases) (e : Env) :
  0 <= total_executions (self e) ->
  succeeds ph = true ->
  Forall (fun y => fails (snd y) = true) l ->
  fails (snd x) = true ->
  Z.of_nat (length l) + 1 = max_retries (config (self e)) ->
  let e1 := snd (run ph e) in
  let e2 := runs l e1 in
  let e3 := run_after x e2 in
  retry_count (self e1) = 0 /\
  retry_count (self e2) = Z.of_nat (length l) /\
  enabled (config (self e2)) = enabled (config (self e)) /\
  state (self e2) = SCHEDULED /\
  state (self e3) = DISABLED /\
  enabled (config (self e3)) = false.
Proof.
  intros Hpos Hs Hl Hx Hlen e1 e2 e3.
  destruct (successful_run ph e Hpos Hs) as (_ & Hst & Hc & Hr & _).
  fold e1 in Hst, Hc, Hr.
  destruct (failing_runs_below l e1 Hl) as (_ & _ & Hr2 & _ & Hc2 & Hs2).
  { rewrite Hr, Hc. lia. }
  fold e2 in Hr2, Hc2, Hs2.
  pose proof (failing_run x e2 Hx) as H3. cbn zeta in H3. fold e3 in H3.
  destruct H3 as (_ & _ & _ & _ & _ & _ & Hif).
  rewrite Hr2, Hc2, Hr, Hc in Hif.
  destruct (0 + Z.of_nat (length l) + 1 >=? max_retries (config (self e))) eqn:E.
  2:{ rewrite Z.geb_leb in E. apply Z.leb_gt in E. lia. }
  destruct Hif as (Hd & He & _).
  split; [done|]. split; [lia|]. split; [by rewrite Hc2, Hc|].
  split; [|done].
  destruct l as [|y l']; [exact Hst|]. by apply Hs2.
Qed.

Lemma X4_success_restores_retries_witness :
  state (self (run_after (0%N, fail_phases)
                 (runs [(0%N, fail_phases)]
                    (snd (run ok_phases (run_after (0%N, fail_phases) (mkEnv a0 0 []))))))) = DISABLED.
Proof.
  refine (proj1 (proj2 (proj2 (proj2 (proj2
    (X4_success_restores_retries ok_phases [(0%N, fail_phases)] (0%N, fail_phases)
       (run_after (0%N, fail_phases) (mkEnv a0 0 [])) _ _ _ _ _)))))).
  - vm_compute. discriminate.
  - reflexivity.
  - repeat constructor.
  - reflexivity.
  - reflexivity.
Defined.

(** X5.  [force_run_now] sets [next_execution] to the present time and
    changes nothing else.  At once and at any later time [is_due] then
    answers true if the activity is enabled and not [DISABLED], and false
    otherwise: forcing does not override a disabled activity. *)
Theorem X5_force_run_now_makes_due (e : Env) (d : N) :
  fst (is_due (advance d (snd (force_run_now e)))) =
    Ok (enabled (config (self e)) && negb (bool_decide (state (self e) = DISABLED))) /\
  self (snd (force_run_now e)) = set_next_execution (Some (activity.clock e)) (self e).
Proof.
  rewrite force_run_now_eq, is_due_eq. destruct e as [a c evs].
  cbn [fst snd advance self activity.clock events]. unfold due. act_simpl.
  split; [|done]. f_equal.
  destruct (enabled (config a) && _); [|done]. cbn [andb]. apply Z.geb_le. lia.
Qed.

(** X6.  [disable] leaves the state [IDLE] and the activity not due,
    without [is_due] changing it.  [enable] after [disable] gives the
    same activity as [enable] alone, and gives back the activity as it
    was if that was enabled, [SCHEDULED] and had no retry used. *)
Theorem X6_disable_then_enable (e : Env) :
  state (self (snd (disable e))) = IDLE /\
  is_due (snd (disable e)) = (Ok false, snd (disable e)) /\
  self (snd (enable (snd (disable e)))) = self (snd (enable e)) /\
  (enabled (config (self e)) = true -> state (self e) = SCHEDULED ->
   retry_count (self e) = 0 ->
   self (snd (enable (snd (disable e)))) = self e).
Proof.
  rewrite !enable_eq, !disable_eq, is_due_eq. destruct e as [a c evs].
  cbn [snd]. act_simpl. split; [done|]. split.
  { unfold due, polled. act_simpl. done. }
  split; [done|].
  destruct a as [n [en ih im st et p mr rd me] s le ne rc te se fe tt at_ sc ec].
  act_simpl. by intros -> -> ->.
Qed.

Lemma X6_disable_then_enable_witness :
  self (snd (enable (snd (disable (mkEnv a0 0 []))))) = a0.
Proof.
  exact (proj2 (proj2 (proj2 (X6_disable_then_enable (mkEnv a0 0 []))))
           eq_refl eq_refl eq_refl).
Defined.

Lemma due_later clk clk' a : due clk a = true -> clk <= clk' -> due clk' a = true.
Proof.
  unfold due, next_time. intros Hd Hle.
  destruct (enabled (config a) && _); [|discriminate]. cbn [andb] in *.
  apply Z.geb_le in Hd. apply Z.geb_le.
  destruct (next_execution a); [lia|]. destruct (last_execution a); lia.
Qed.

(** X7.  [is_due] asked again at the same moment gives the same answer and
    changes nothing more; the first call changes at most [next_execution],
    and neither the clock nor the trace.  An activity that is due stays due
    at every later time, whether [is_due] was called in between or not. *)
Theorem X7_is_due_stable (e : Env) (d : N) :
  let e1 := snd (is_due e) in
  is_due e1 = (fst (is_due e), e1) /\
  (exists n, self e1 = set_next_execution n (self e)) /\
  activity.clock e1 = activity.clock e /\ events e1 = events e /\
  (fst (is_due e) = Ok true ->
   fst (is_due (advance d e)) = Ok true /\ fst (is_due (advance d e1)) = Ok true).
Proof.
  cbn zeta. rewrite !is_due_eq. destruct e as [a c evs].
  cbn [fst snd self activity.clock events advance].
  rewrite due_polled, polled_polled. split; [done|]. split.
  { unfold polled. destruct (_ && _); [destruct (next_execution a) eqn:E|].
    - exists (Some z). destruct a. cbn in *. by subst.
    - by eexists.
    - exists (next_execution a). by destruct a. }
  split; [done|]. split; [done|].
  intros [= Hd]. split; f_equal.
  - apply (due_later c); [done|lia].
  - apply due_mono; [done|lia].
Qed.

Lemma X7_is_due_stable_witness :
  fst (is_due (advance 1000 (mkEnv a0 0 []))) = Ok true.
Proof.
  exact (proj1 (proj2 (proj2 (proj2 (proj2 (X7_is_due_stable (mkEnv a0 0 []) 1000)))) eq_refl)).
Defined.

Lemma adjust_window_eq t e st en :
  bound (start_time (config (self e))) = Some (Some st) ->
  bound (end_time (config (self e))) = Some en ->
  _adjust_for_time_window t e = (Ok (window_adjust (config (self e)) t), e).
Proof.
  intros Hs He. rewrite adjust_eq.
  destruct (truthy (start_time (config (self e)))) eqn:E; [done|].
  unfold bound in Hs. rewrite E in Hs. discriminate.
Qed.

Lemma time_of_combine d t : 0 <= t < DAY -> time_of (combine d t) = t.
Proof.
  intros H. unfold time_of, combine.
  rewrite Z.add_comm, Z.mod_add by (unfold DAY, HOUR, MINUTE, SECOND; lia).
  by apply Z.mod_small.
Qed.

Lemma date_time_of t : t = combine (date_of t) (time_of t) /\ 0 <= time_of t < DAY.
Proof.
  unfold combine, date_of, time_of.
  assert (Hd : 0 < DAY) by reflexivity.
  pose proof (Z.div_mod t DAY ltac:(lia)). pose proof (Z.mod_pos_bound t DAY Hd). lia.
Qed.

Ltac compare_all :=
  rewrite ?Z.gtb_ltb in *;
  repeat match goal with
    | |- context [?a <? ?b] => destruct (Z.ltb_spec a b)
    end.

(** X8.  A window within one day: both bounds are well formed and the
    start is not after the end.  [_adjust_for_time_window] then returns a
    time whose time of day lies in the window, not before the given time
    and at most a day after it; a time inside the window is returned as it
    is, and adjusting the result again changes nothing. *)
Theorem X8_window_within_day (t st en : Z) (e : Env) :
  bound (start_time (config (self e))) = Some (Some st) ->
  bound (end_time (config (self e))) = Some (Some en) ->
  st <= en ->
  exists t',
    _adjust_for_time_window t e = (Ok t', e) /\
    st <= time_of t' <= en /\
    t <= t' <= t + DAY /\
    (st <= time_of t <= en -> t' = t) /\
    _adjust_for_time_window t' e = (Ok t', e).
Proof.
  intros Hs He Hle.
  pose proof (bound_range _ _ Hs) as Hst. pose proof (bound_range _ _ He) as Hen.
  assert (Hw : forall u, window_adjust (config (self e)) u =
                 if time_of u <? st then combine (date_of u) st
                 else if time_of u >? en then combine (date_of u + 1) st else u).
  { intros u. unfold window_adjust. by rewrite Hs, He. }
  assert (Hfix : forall u, st <= time_of u <= en ->
                   window_adjust (config (self e)) u = u).
  { intros u Hu. rewrite Hw. compare_all; lia. }
  assert (Hin : st <= time_of (window_adjust (config (self e)) t) <= en).
  { rewrite Hw. destruct (date_time_of t) as [_ Hr].
    compare_all; rewrite ?time_of_combine by lia; lia. }
  exists (window_adjust (config (self e)) t).
  rewrite !(fun u => adjust_window_eq u e st (Some en) Hs He).
  split; [done|]. split; [done|]. split.
  { rewrite Hw. destruct (date_time_of t) as [Ht Hr].
    unfold combine, DAY, HOUR, MINUTE, SECOND in *. compare_all; lia. }
  split; [apply Hfix|]. by rewrite (Hfix _ Hin).
Qed.

Lemma X8_window_within_day_witness :
  exists t',
    _adjust_for_time_window (5 * HOUR) windowed = (Ok t', windowed) /\
    6 * HOUR <= time_of t' <= 23 * HOUR.
Proof.
  destruct (X8_window_within_day (5 * HOUR) (6 * HOUR) (23 * HOUR) windowed)
    as (t' & H1 & H2 & _).
  - reflexivity.
  - reflexivity.
  - vm_compute. discriminate.
  - exists t'. split; [exact H1|exact H2].
Defined.

(** X9.  A window over midnight: both bounds are well formed and the end
    is earlier in the day than the start.  [_adjust_for_time_window] then
    moves every time, also one that lies between the start and midnight or
    between midnight and the end: the result is at the start time, later
    than the given time and at most a day after it. *)
Theorem X9_window_over_midnight (t st en : Z) (e : Env) :
  bound (start_time (config (self e))) = Some (Some st) ->
  bound (end_time (config (self e))) = Some (Some en) ->
  en < st ->
  exists t',
    _adjust_for_time_window t e = (Ok t', e) /\
    time_of t' = st /\
    t < t' <= t + DAY.
Proof.
  intros Hs He Hlt.
  pose proof (bound_range _ _ Hs) as Hst. pose proof (bound_range _ _ He) as Hen.
  exists (window_adjust (config (self e)) t).
  rewrite (adjust_window_eq t e st (Some en) Hs He).
  destruct (date_time_of t) as [Ht Hr].
  unfold window_adjust. rewrite Hs, He.
  split; [done|]. split.
  - compare_all; try lia; by apply time_of_combine.
  - unfold combine, DAY, HOUR, MINUTE, SECOND in *. compare_all; lia.
Qed.

Lemma X9_window_over_midnight_witness :
  exists t',
    _adjust_for_time_window (23 * HOUR) overnight = (Ok t', overnight) /\
    time_of t' = 22 * HOUR /\ 23 * HOUR < t'.
Proof.
  destruct (X9_window_over_midnight (23 * HOUR) (22 * HOUR) (6 * HOUR) overnight)
    as (t' & H1 & H2 & H3 & _).
  - reflexivity.
  - reflexivity.
  - vm_compute. reflexivity.
  - exists t'. split; [exact H1|]. split; [exact H2|exact H3].
Defined.

(** * Further properties of [scheduler.py] *)

Import scheduler.
Import registry.

Lemma list_remove_Some (x : ref) (l : list ref) :
  x ∈ l ->
  exists l1 l2, l = l1 ++ x :: l2 /\ (x ∉ l1) /\ list_remove x l = Some (l1 ++ l2).
Proof.
  induction l as [|y l IH]; intros Hin; [by apply elem_of_nil in Hin|].
  cbn. destruct (decide (x = y)) as [->|Hne].
  - exists [], l. rewrite bool_decide_eq_true_2 by done. split; [done|]. split; [|done].
    apply not_elem_of_nil.
  - rewrite bool_decide_eq_false_2 by done.
    destruct IH as (l1 & l2 & -> & Hn & ->); [set_solver|].
    exists (y :: l1), l2. split; [done|]. split; [set_solver|done].
Qed.

Lemma list_remove_None (x : ref) (l : list ref) : x ∉ l -> list_remove x l = None.
Proof.
  induction l as [|y l IH]; intros Hn; [done|].
  cbn. rewrite bool_decide_eq_false_2 by set_solver. rewrite IH by set_solver. done.
Qed.

Lemma register_activity_any r oid w :
  register_activity r oid w =
    if bool_decide (r ∈ _activities (sched w)) then (Ok tt, w)
    else (Ok tt, registered r (chosen_id oid (heap w r)) w).
Proof.
  unfold register_activity, registered, chosen_id. sexec.
  destruct (bool_decide _); reflexivity.
Qed.

Lemma unregister_activity_eq id w :
  unregister_activity id w =
    match _activities_by_id (sched w) !! id with
    | None => (Ok false, w)
    | Some r =>
        match list_remove r (_activities (sched w)) with
        | None => (Raise, w)
        | Some l =>
            (Ok true,
             with_sched (fun s => set_activities_by_id (delete id (_activities_by_id (sched w)))
                                    (set_activities l s)) w)
        end
    end.
Proof.
  unfold unregister_activity. sexec.
  destruct (_activities_by_id (sched w) !! id) as [r|]; [|reflexivity].
  destruct (list_remove r (_activities (sched w))); reflexivity.
Qed.

Lemma registered_well_formed r id w :
  r ∉ _activities (sched w) ->
  well_formed (sched w) -> well_formed (sched (registered r id w)).
Proof.
  intros Hr (Hnd & Hval & Hinj). unfold well_formed, registered.
  cbn [sched _activities _activities_by_id set_activities set_activities_by_id].
  split; [|split].
  - apply NoDup_app. split; [done|]. split; [|apply NoDup_singleton].
    intros x Hx Hx'. apply list_elem_of_singleton in Hx'. by subst.
  - intros k r' Hk. apply lookup_insert_Some in Hk as [[_ <-]|[_ Hk]]; [set_solver|].
    apply Hval in Hk. set_solver.
  - intros k k' r' Hk Hk'.
    apply lookup_insert_Some in Hk as [[<- <-]|[Hne Hk]];
      apply lookup_insert_Some in Hk' as [[<- Heq]|[Hne' Hk']]; try done.
    + apply Hval in Hk'. done.
    + subst r'. apply Hval in Hk. done.
    + by eapply Hinj.
Qed.

(** X10.  The registry is in order ([well_formed]): no activity is listed
    twice, every id denotes a listed activity and no activity has two ids.
    This holds for a new scheduler and is kept by [register_activity],
    by [unregister_activity], which then never raises ([list.remove] finds
    the activity), and by an iteration of the scheduler loop. *)
Theorem X10_registry_well_formed (w : World) (r : ref) (oid : option string)
  (id : string) (phases : ref -> Phases) :
  well_formed scheduler.__init__ /\
  (well_formed (sched w) ->
   well_formed (sched (snd (register_activity r oid w))) /\
   (exists b, fst (unregister_activity id w) = Ok b) /\
   well_formed (sched (snd (unregister_activity id w))) /\
   well_formed (sched (snd (tick phases w)))).
Proof.
  split.
  { split; [constructor|].
    split; [intros k r0 Hk|intros k k' r0 Hk _]; cbn in Hk; by rewrite lookup_empty in Hk. }
  intros Hwf. split; [|split; [|split]].
  - rewrite register_activity_any. case_bool_decide as Hin; [done|].
    by apply registered_well_formed.
  - rewrite unregister_activity_eq.
    destruct (_activities_by_id (sched w) !! id) as [r0|] eqn:E; [|by eexists].
    destruct Hwf as (_ & Hval & _). apply Hval in E.
    destruct (list_remove_Some r0 _ E) as (l1 & l2 & _ & _ & ->). by eexists.
  - rewrite unregister_activity_eq.
    destruct (_activities_by_id (sched w) !! id) as [r0|] eqn:E; [|done].
    destruct Hwf as (Hnd & Hval & Hinj). pose proof (Hval _ _ E) as Hin.
    destruct (list_remove_Some r0 _ Hin) as (l1 & l2 & Hl & Hn1 & ->).
    cbn [snd with_sched sched]. unfold well_formed.
    cbn [_activities _activities_by_id set_activities set_activities_by_id].
    rewrite Hl in Hnd, Hval.
    apply NoDup_app in Hnd as (Hnd1 & Hdisj & Hnd2).
    apply NoDup_cons in Hnd2 as [Hn2 Hnd2].
    split; [|split].
    + apply NoDup_app. split; [done|]. split; [|done]. intros x Hx Hx'.
      apply (Hdisj x Hx). set_solver.
    + intros k r' Hk. apply lookup_delete_Some in Hk as [Hne Hk].
      pose proof (Hval _ _ Hk) as Hr'.
      assert (r' <> r0) by (intros ->; by apply Hne, (Hinj id k r0)).
      set_solver.
    + intros k k' r' Hk Hk'. apply lookup_delete_Some in Hk as [_ Hk].
      apply lookup_delete_Some in Hk' as [_ Hk']. by eapply Hinj.
  - destruct Hwf as (Hnd & Hval & Hinj).
    assert (Hby : _activities_by_id (sched (snd (tick phases w))) = _activities_by_id (sched w)).
    { rewrite tick_eq. destruct (head _) as [r0|].
      - cbn [snd]. by destruct (executed_activities (phases r0) r0 (polled_world w)) as [_ ->].
      - rewrite sleep_eq. by destruct (_ <? 0). }
    unfold well_formed. rewrite tick_activities, Hby. done.
Qed.

Lemma X10_registry_well_formed_witness :
  well_formed (sched (snd (register_activity 0%nat None same_id))).
Proof.
  exact (proj1 (proj2 (X10_registry_well_formed same_id 0%nat None "alliance_help"
                         (fun _ => ok_phases))
                  (proj1 (X10_registry_well_formed same_id 0%nat None "alliance_help"
                            (fun _ => ok_phases))))).
Defined.

Lemma list_remove_app_last (x : ref) (l : list ref) :
  x ∉ l -> list_remove x (l ++ [x]) = Some l.
Proof.
  intros Hn. induction l as [|y l IH]; cbn.
  - by rewrite bool_decide_eq_true_2.
  - rewrite bool_decide_eq_false_2 by set_solver. rewrite IH by set_solver. done.
Qed.

(** X11.  Registering an activity that is not listed files it under the
    given id, or under the id derived from its name if none or the empty
    string is given: [get_activity] then finds it under that id, the other
    ids are as before, and the activity is the last of the list.
    [unregister_activity] with that id returns true and gives back the list
    as it was, the id is unknown again, and if the id was not taken before
    the scheduler is as it was.  Of the activities only the registered one
    has changed: it keeps the two callbacks of the scheduler. *)
Theorem X11_register_lookup_unregister (w : World) (r : ref) (oid : option string) :
  let id := chosen_id oid (heap w r) in
  let w1 := snd (register_activity r oid w) in
  let w2 := snd (unregister_activity id w1) in
  r ∉ _activities (sched w) ->
  fst (get_activity id w1) = Ok (Some r) /\
  (forall k, k <> id -> fst (get_activity k w1) = fst (get_activity k w)) /\
  _activities (sched w1) = _activities (sched w) ++ [r] /\
  fst (unregister_activity id w1) = Ok true /\
  _activities (sched w2) = _activities (sched w) /\
  fst (get_activity id w2) = Ok None /\
  (_activities_by_id (sched w) !! id = None -> sched w2 = sched w) /\
  heap w2 r = set_callbacks true true (heap w r) /\
  (forall r', r' <> r -> heap w2 r' = heap w r').
Proof.
  intros id w1 w2 Hr.
  assert (Hw1 : w1 = registered r id w).
  { subst w1. rewrite register_activity_any. by rewrite bool_decide_eq_false_2. }
  assert (Hu : unregister_activity id w1 =
                 (Ok true,
                  with_sched (fun s => set_activities_by_id
                                         (delete id (_activities_by_id (sched w1)))
                                         (set_activities (_activities (sched w)) s)) w1)).
  { rewrite unregister_activity_eq.
    assert (E : _activities_by_id (sched w1) !! id = Some r)
      by (rewrite Hw1; cbn; apply lookup_insert_eq).
    rewrite E.
    assert (Er : list_remove r (_activities (sched w1)) = Some (_activities (sched w)))
      by (rewrite Hw1; cbn; by apply list_remove_app_last).
    by rewrite Er. }
  subst w2. rewrite Hu. cbn [fst snd]. unfold get_activity. sexec.
  rewrite Hw1. cbn [registered sched heap with_sched _activities _activities_by_id
                    set_activities set_activities_by_id].
  split; [by rewrite lookup_insert_eq|].
  split; [intros k Hk; by rewrite lookup_insert_ne|].
  split; [done|]. split; [done|]. split; [done|].
  split; [by rewrite lookup_delete_eq|]. split.
  { intros Hfresh. rewrite delete_insert_eq, delete_id by done. by destruct (sched w). }
  split; [by rewrite fn_lookup_insert|]. intros r' Hne. by rewrite fn_lookup_insert_ne.
Qed.

Lemma X11_register_lookup_unregister_witness :
  fst (get_activity "alliance_help" (snd (register_activity 0%nat None same_id)))
  = Ok (Some 0%nat) /\
  sched (snd (unregister_activity "alliance_help"
                (snd (register_activity 0%nat None same_id)))) = sched same_id.
Proof.
  pose proof (X11_register_lookup_unregister same_id 0%nat None) as H. cbn zeta in H.
  destruct H as (H1 & _ & _ & _ & _ & _ & H2 & _).
  - cbn. apply not_elem_of_nil.
  - split; [exact H1|]. apply H2. reflexivity.
Defined.

(** An empty explicit id counts as none. *)
Lemma register_empty_id (w : World) (r : ref) :
  register_activity r (Some ""%string) w = register_activity r None w.
Proof. by rewrite !register_activity_any. Qed.

(** X12.  With an id that is not known, [unregister_activity],
    [enable_activity], [disable_activity] and [reset_activity_statistics]
    return false and change nothing. *)
Theorem X12_unregister_unknown (w : World) (id : string) :
  _activities_by_id (sched w) !! id = None ->
  unregister_activity id w = (Ok false, w) /\
  enable_activity id w = (Ok false, w) /\
  disable_activity id w = (Ok false, w) /\
  reset_activity_statistics id w = (Ok false, w).
Proof.
  intros H. rewrite unregister_activity_eq, H.
  unfold enable_activity, disable_activity, reset_activity_statistics, get_activity.
  sexec. rewrite H. done.
Qed.

Lemma X12_unregister_unknown_witness :
  unregister_activity "shield" same_id = (Ok false, same_id).
Proof. exact (proj1 (X12_unregister_unknown same_id "shield" eq_refl)). Defined.




Lemma filter_sublist {A} (f : A -> bool) (l : list A) : sublist (List.filter f l) l.
Proof.
  induction l as [|x l IH]; [constructor|]. cbn.
  destruct (f x); by constructor.
Qed.

(** X14.  [get_enabled_activities] and [get_all_activities] change
    nothing; the enabled activities are those of the list whose [enabled]
    is set, in the order of the list, and every candidate of the selection,
    hence every activity [_get_next_due_activity] returns, is one of
    them. *)
Theorem X14_enabled_activities (w : World) :
  exists enabled_ all : list ref,
    get_enabled_activities w = (Ok enabled_, w) /\
    get_all_activities w = (Ok all, w) /\
    all = _activities (sched w) /\
    sublist enabled_ all /\
    (forall r, r ∈ enabled_ <->
               r ∈ all /\ enabled (config (heap w r)) = true) /\
    (forall r, r ∈ candidates w -> r ∈ enabled_) /\
    (forall r, fst (_get_next_due_activity w) = Ok (Some r) -> r ∈ enabled_).
Proof.
  eexists _, _. split; [reflexivity|]. split; [reflexivity|]. split; [reflexivity|].
  cbn [sched]. split; [apply filter_sublist|].
  assert (Hmem : forall r,
            r ∈ List.filter (fun r => enabled (config (heap w r))) (_activities (sched w))
            <-> r ∈ _activities (sched w) /\ enabled (config (heap w r)) = true).
  { intros r. rewrite !list_elem_of_In. apply filter_In. }
  assert (Hc : forall r, r ∈ candidates w ->
            r ∈ List.filter (fun r => enabled (config (heap w r))) (_activities (sched w))).
  { intros r Hr. apply elem_of_candidates in Hr as [Hin Hd]. apply Hmem. split; [done|].
    unfold due in Hd. by destruct (enabled (config (heap w r))). }
  split; [exact Hmem|]. split; [exact Hc|].
  intros r. rewrite next_due_fst. intros [= Hsel]. apply Hc.
  apply selection_iff in Hsel as (l1 & l2 & -> & _). set_solver.
Qed.

Lemma on_activity_applies (m : M Env unit) (r : ref) (w : World) :
  fst (m (mkEnv (heap w r) (scheduler.clock w) [])) = Ok tt ->
  activity.clock (snd (m (mkEnv (heap w r) (scheduler.clock w) []))) = scheduler.clock w ->
  applies (on_activity r m;;; ret true) m r w.
Proof.
  intros Hok Hclk. unfold applies, on_activity, bind, ret.
  destruct (m _) as [res e] eqn:E. cbn [fst snd] in *. subst res.
  eexists. split; [reflexivity|]. cbn [heap sched scheduler.clock threads].
  split; [by rewrite fn_lookup_insert|].
  split; [by intros r' Hne; rewrite fn_lookup_insert_ne|]. done.
Qed.

Lemma get_activity_eq id w :
  get_activity id w = (Ok (_activities_by_id (sched w) !! id), w).
Proof. reflexivity. Qed.

Lemma reset_statistics_due clk e :
  due clk (self (snd (reset_statistics e))) = due clk (self e).
Proof. rewrite reset_statistics_eq. reflexivity. Qed.

(** X15.  With a known id, [enable_activity], [disable_activity] and
    [reset_activity_statistics] return true and are [enable], [disable]
    and [reset_statistics] on the activity the id denotes: no other
    activity, the scheduler, the clock and the pending threads are as
    before.  After [disable_activity] the activity is no candidate of the
    selection, and [reset_activity_statistics] leaves the candidates as
    they are. *)
Theorem X15_control_by_id (w : World) (id : string) (r : ref) :
  _activities_by_id (sched w) !! id = Some r ->
  applies (enable_activity id) enable r w /\
  applies (disable_activity id) disable r w /\
  applies (reset_activity_statistics id) reset_statistics r w /\
  (r ∉ candidates (snd (disable_activity id w))) /\
  candidates (snd (reset_activity_statistics id w)) = candidates w.
Proof.
  intros Hid.
  assert (He : applies (enable_activity id) enable r w).
  { unfold applies, enable_activity. unfold bind at 1. rewrite get_activity_eq, Hid.
    cbv beta iota. apply on_activity_applies; by rewrite enable_eq. }
  assert (Hd : applies (disable_activity id) disable r w).
  { unfold applies, disable_activity. unfold bind at 1. rewrite get_activity_eq, Hid.
    cbv beta iota. apply on_activity_applies; by rewrite disable_eq. }
  assert (Hr : applies (reset_activity_statistics id) reset_statistics r w).
  { unfold applies, reset_activity_statistics. unfold bind at 1. rewrite get_activity_eq, Hid.
    cbv beta iota. apply on_activity_applies; by rewrite reset_statistics_eq. }
  split_and!; try done.
  - destruct Hd as (w' & -> & Hh & _). cbn [snd]. rewrite elem_of_candidates.
    intros [_ Hdue]. rewrite Hh, disable_eq in Hdue.
    unfold due in Hdue. cbn in Hdue. done.
  - destruct Hr as (w' & -> & Hh & Ho & Hs & Hc & _). cbn [snd].
    unfold candidates. rewrite Hs, Hc. apply filter_ext. intros x.
    destruct (decide (x = r)) as [->|Hne]; [|by rewrite Ho].
    rewrite Hh. apply reset_statistics_due.
Qed.

Lemma X15_control_by_id_witness :
  applies (enable_activity "alliance_help") enable 0%nat
    (snd (register_activity 0%nat None same_id)).
Proof.
  exact (proj1 (X15_control_by_id (snd (register_activity 0%nat None same_id))
                  "alliance_help" 0%nat eq_refl)).
Defined.

Lemma not_enabled_polled clk a : enabled (config a) = false -> polled clk a = a.
Proof. unfold polled. by intros ->. Qed.

Lemma not_enabled_not_due clk a : enabled (config a) = false -> due clk a = false.
Proof. unfold due. by intros ->. Qed.

Lemma not_enabled_not_selected w r :
  enabled (config (heap w r)) = false ->
  head (sort_by (priority_of w) (candidates w)) <> Some r.
Proof.
  intros He Hsel. apply selection_iff in Hsel as (l1 & l2 & Hl & _).
  assert (Hin : r ∈ candidates w) by (rewrite Hl; set_solver).
  apply elem_of_candidates in Hin as [_ Hd].
  by rewrite not_enabled_not_due in Hd.
Qed.

Lemma tick_not_enabled p w r :
  enabled (config (heap w r)) = false -> heap (snd (tick p w)) r = heap w r.
Proof.
  intros He. rewrite tick_heap_other by by apply not_enabled_not_selected.
  case_bool_decide; [by apply not_enabled_polled|done].
Qed.

(** X16.  The scheduler loop never touches an activity that is not
    enabled: after any number of iterations, whatever the other activities
    do, it is as it was, and it is no candidate of the selection. *)
Theorem X16_not_enabled_untouched (ps : list (ref -> Phases)) (w : World) (r : ref) :
  enabled (config (heap w r)) = false ->
  heap (ticks ps w) r = heap w r /\ (r ∉ candidates (ticks ps w)).
Proof.
  intros He.
  assert (H : heap (ticks ps w) r = heap w r).
  { revert w He. induction ps as [|p ps IH]; intros w He; [done|].
    cbn [ticks foldl]. fold (ticks ps (snd (tick p w))).
    rewrite IH; by rewrite tick_not_enabled. }
  split; [done|]. rewrite elem_of_candidates. intros [_ Hd].
  rewrite H, not_enabled_not_due in Hd; done.
Qed.

Lemma X16_not_enabled_untouched_witness :
  heap (ticks [fun _ => ok_phases] (snd (disable_activity "alliance_help" one_registered)))
    0%nat
  = heap (snd (disable_activity "alliance_help" one_registered)) 0%nat.
Proof.
  exact (proj1 (X16_not_enabled_untouched [fun _ => ok_phases]
                  (snd (disable_activity "alliance_help" one_registered)) 0%nat eq_refl)).
Defined.








(** X19.  The thread started by [run_activity_now] runs the activity
    without asking [is_due]: it is [run] on that activity, counted once by
    the scheduler, no other activity changes and [_current_activity] is
    [None] afterwards.  If the phases succeed the activity has run once
    more, is [SCHEDULED] and was last executed when the thread ended,
    also when it is not enabled, which its configuration still says. *)
Theorem X19_manual_run (ph : Phases) (w : World) (r : ref) (rest : list ref) :
  threads w = r :: rest ->
  exists w',
    run_thread ph w = (Ok tt, w') /\
    threads w' = rest /\
    heap w' r = self (snd (run ph (mkEnv (heap w r) (scheduler.clock w) []))) /\
    (forall r', r' <> r -> heap w' r' = heap w r') /\
    scheduler.total_executions (sched w') = scheduler.total_executions (sched w) + 1 /\
    _current_activity (sched w') = None /\
    (0 <= activity.total_executions (heap w r) -> succeeds ph = true ->
     activity.total_executions (heap w' r) = activity.total_executions (heap w r) + 1 /\
     state (heap w' r) = SCHEDULED /\
     config (heap w' r) = config (heap w r) /\
     last_execution (heap w' r) = Some (scheduler.clock w')).
Proof.
  intros Hth. unfold run_thread. unfold bind at 1. unfold get at 1. cbv beta iota.
  rewrite Hth. unfold bind at 1. unfold modify at 1. cbv beta iota.
  rewrite execute_activity_eq. eexists. split; [reflexivity|].
  set (w0 := mkWorld (heap w) (sched w) (scheduler.clock w) (log w) rest).
  split; [reflexivity|].
  split; [by rewrite executed_heap_self|].
  split; [by intros r' Hne; rewrite executed_heap_other|].
  destruct (executed_counters ph r w0) as (Ht & _ & _ & Hcur).
  split; [exact Ht|]. split; [exact Hcur|].
  intros Hpos Hs. rewrite executed_heap_self.
  destruct (successful_run ph (mkEnv (heap w r) (scheduler.clock w) []) Hpos Hs)
    as (_ & Hst & Hc & _ & Htot & _ & _ & Hl & _).
  cbn [self] in *. subst w0. cbn [heap scheduler.clock].
  split; [exact Htot|]. split; [exact Hst|]. split; [exact Hc|].
  rewrite Hl. f_equal. rewrite run_eq. reflexivity.
Qed.

Lemma X19_manual_run_witness :
  exists w',
    run_thread ok_phases
      (spawn 0%nat (snd (disable_activity "alliance_help" one_registered)))
    = (Ok tt, w') /\
    activity.total_executions (heap w' 0%nat) = 1 /\
    enabled (config (heap w' 0%nat)) = false.
Proof.
  destruct (X19_manual_run ok_phases
              (spawn 0%nat (snd (disable_activity "alliance_help" one_registered)))
              0%nat [] eq_refl)
    as (w' & H1 & _ & _ & _ & _ & _ & H2).
  destruct H2 as (Ht & _ & Hc & _); [vm_compute; discriminate|reflexivity|].
  exists w'. split; [exact H1|]. split; [rewrite Ht; reflexivity|].
  rewrite Hc. reflexivity.
Defined.

Lemma collect_scheduled_eq l acc w :
  collect_scheduled l acc w = (Ok (acc ++ omap (entry_of w) l), w).
Proof.
  revert acc. induction l as [|r l IH]; intros acc; cbn [collect_scheduled omap list_omap].
  - by rewrite app_nil_r.
  - unfold bind at 1. unfold deref at 1. cbv beta iota.
    unfold entry_of at 1.
    destruct (enabled (config (heap w r))); cbn [negb].
    + destruct (activity.next_execution (heap w r)) as [n|].
      * unfold bind at 1. unfold datetime_now at 1. cbv beta iota.
        rewrite IH. by rewrite <- app_assoc.
      * apply IH.
    + apply IH.
Qed.

Lemma get_next_scheduled_activities_eq count w :
  get_next_scheduled_activities count w =
    (Ok (slice_to count (sort_on next_execution (upcoming w))), w).
Proof.
  unfold get_next_scheduled_activities. unfold bind at 1. unfold scheduler.this at 1.
  cbv beta iota. unfold bind at 1. rewrite collect_scheduled_eq. reflexivity.
Qed.

Lemma insert_on_Permutation key x l : insert_on key x l ≡ₚ x :: l.
Proof.
  induction l as [|y l IH]; [done|]. cbn.
  destruct (key x <=? key y); [done|]. rewrite IH. apply Permutation_swap.
Qed.

Lemma sort_on_Permutation key l : sort_on key l ≡ₚ l.
Proof.
  unfold sort_on. induction l as [|x l IH]; [done|]. cbn.
  by rewrite insert_on_Permutation, IH.
Qed.

Lemma insert_on_StronglySorted key x l :
  StronglySorted (fun a b => key a <= key b) l ->
  StronglySorted (fun a b => key a <= key b) (insert_on key x l).
Proof.
  induction 1 as [|y l Hs IH Hall]; cbn.
  - by repeat constructor.
  - destruct (key x <=? key y) eqn:E.
    + apply Z.leb_le in E. constructor; [by constructor|].
      constructor; [done|]. eapply Forall_impl; [exact Hall|]. intros z Hz. cbn in *. lia.
    + apply Z.leb_gt in E. constructor; [done|].
      rewrite insert_on_Permutation. constructor; [lia|done].
Qed.

Lemma sort_on_StronglySorted key l :
  StronglySorted (fun a b => key a <= key b) (sort_on key l).
Proof.
  unfold sort_on. induction l as [|x l IH]; cbn; [constructor|].
  by apply insert_on_StronglySorted.
Qed.

Lemma StronglySorted_take_drop {A} (R : A -> A -> Prop) (l : list A) (k : nat) :
  StronglySorted R l ->
  StronglySorted R (take k l) /\
  (forall u v, u ∈ take k l -> v ∈ drop k l -> R u v).
Proof.
  intros Hs. revert k. induction Hs as [|x l Hs IH Hall]; intros k.
  - rewrite take_nil. split; [constructor|]. intros u v Hu. by apply elem_of_nil in Hu.
  - destruct k as [|k]; cbn [take drop].
    + split; [constructor|]. intros u v Hu. by apply elem_of_nil in Hu.
    + destruct (IH k) as [IH1 IH2]. split.
      * constructor; [done|]. rewrite Forall_forall in Hall. apply Forall_forall.
        intros z Hz. apply Hall. rewrite <- (take_drop k l). set_solver.
      * intros u v Hu Hv. apply elem_of_cons in Hu as [->|Hu]; [|by apply IH2].
        rewrite Forall_forall in Hall. apply Hall. rewrite <- (take_drop k l). set_solver.
Qed.

Lemma entry_of_Some w r u :
  entry_of w r = Some u ->
  enabled (config (heap w r)) = true /\
  activity.next_execution (heap w r) = Some (next_execution u) /\
  name u = activity.name (heap w r) /\
  priority u = activity.priority (config (heap w r)) /\
  time_until u = total_seconds (next_execution u - scheduler.clock w).
Proof.
  unfold entry_of. destruct (enabled _); [|discriminate].
  destruct (activity.next_execution _) as [n|]; [|discriminate].
  by intros [= <-].
Qed.

(** X20.  [get_next_scheduled_activities(count)] changes nothing and
    returns entries of enabled registered activities that have a
    [next_execution], each with the name, the priority and the
    [next_execution] of its activity and the seconds from now until then.
    The result is in the order of [next_execution] and none of the entries
    left out comes before one returned; for [count >= 0] its length is
    [count], or the number of such activities if that is less, and for
    [count < 0] the last [-count] entries are left out.  An entry that is
    not in the future belongs to a candidate of the selection unless its
    activity is [DISABLED]. *)
Theorem X20_next_scheduled (count : Z) (w : World) :
  exists res rest : list Upcoming,
    get_next_scheduled_activities count w = (Ok res, w) /\
    res ++ rest ≡ₚ upcoming w /\
    StronglySorted (fun a b => next_execution a <= next_execution b) res /\
    (forall u v, u ∈ res -> v ∈ rest -> next_execution u <= next_execution v) /\
    (0 <= count ->
     length res = Nat.min (Z.to_nat count) (length (upcoming w))) /\
    (count < 0 ->
     length res = (length (upcoming w) - Z.to_nat (- count))%nat) /\
    (forall u, u ∈ res ->
       exists r, r ∈ _activities (sched w) /\
         enabled (config (heap w r)) = true /\
         activity.next_execution (heap w r) = Some (next_execution u) /\
         name u = activity.name (heap w r) /\
         priority u = activity.priority (config (heap w r)) /\
         time_until u = total_seconds (next_execution u - scheduler.clock w) /\
         ((time_until u <= 0)%Q -> state (heap w r) <> DISABLED ->
          r ∈ candidates w)).
Proof.
  rewrite get_next_scheduled_activities_eq.
  set (sorted := sort_on next_execution (upcoming w)).
  assert (Hlen : length sorted = length (upcoming w))
    by (subst sorted; by rewrite sort_on_Permutation).
  assert (Hk : exists k, slice_to count sorted = take k sorted /\
                 (0 <= count -> k = Z.to_nat count) /\
                 (count < 0 -> k = (length sorted - Z.to_nat (- count))%nat)).
  { unfold slice_to. destruct (0 <=? count) eqn:E.
    - apply Z.leb_le in E. eexists. split; [done|]. split; [done|lia].
    - apply Z.leb_gt in E. eexists. split; [done|]. split; [lia|]. intros _. lia. }
  destruct Hk as (k & Hslice & Hpos & Hneg).
  exists (take k sorted), (drop k sorted). rewrite Hslice.
  destruct (StronglySorted_take_drop _ sorted k
              (sort_on_StronglySorted next_execution (upcoming w))) as [Hs1 Hs2].
  split; [done|]. split; [by rewrite take_drop; apply sort_on_Permutation|].
  split; [exact Hs1|]. split; [exact Hs2|].
  split; [by intros Hc; rewrite length_take, Hlen, (Hpos Hc)|].
  split. { intros Hc. rewrite length_take, (Hneg Hc), Hlen. lia. }
  intros u Hu.
  assert (Hin : u ∈ upcoming w).
  { rewrite <- (sort_on_Permutation next_execution). fold sorted.
    rewrite <- (take_drop k sorted). set_solver. }
  apply list_elem_of_omap in Hin as (r & Hr & He).
  exists r. split; [exact Hr|].
  destruct (entry_of_Some w r u He) as (H1 & H2 & H3 & H4 & H5).
  split_and!; try done.
  intros Hq Hst. apply elem_of_candidates. split; [exact Hr|].
  unfold due. rewrite H1, H2, bool_decide_eq_false_2 by done. cbn [andb negb].
  rewrite H5 in Hq. unfold total_seconds, Qle in Hq. cbn in Hq.
  apply Z.geb_le. lia.
Qed.

Lemma X20_next_scheduled_witness :
  exists res,
    get_next_scheduled_activities 1 (snd (tick (fun _ => ok_phases) two_due))
    = (Ok res, snd (tick (fun _ => ok_phases) two_due)) /\
    length res = 1%nat.
Proof.
  destruct (X20_next_scheduled 1 (snd (tick (fun _ => ok_phases) two_due)))
    as (res & rest & H1 & _ & _ & _ & Hlen & _).
  exists res. split; [exact H1|].
  rewrite Hlen by lia. vm_compute. reflexivity.
Defined.

Lemma reset_statistics_self a clk evs clk' evs' :
  self (snd (reset_statistics (mkEnv a clk evs)))
  = self (snd (reset_statistics (mkEnv a clk' evs'))).
Proof. by rewrite !reset_statistics_eq. Qed.

Lemma reset_statistics_twice a clk evs clk' evs' :
  self (snd (reset_statistics
               (mkEnv (self (snd (reset_statistics (mkEnv a clk evs)))) clk' evs')))
  = self (snd (reset_statistics (mkEnv a clk evs))).
Proof. by rewrite !reset_statistics_eq. Qed.

Lemma on_activity_reset_statistics r w :
  on_activity r reset_statistics w =
    (Ok tt,
     mkWorld (<[r := self (snd (reset_statistics
                                  (mkEnv (heap w r) (scheduler.clock w) [])))]> (heap w))
       (sched w) (scheduler.clock w) (log w) (threads w)).
Proof. unfold on_activity. rewrite reset_statistics_eq. cbn. by rewrite app_nil_r. Qed.

Lemma reset_each_eq l w :
  exists w', reset_each l w = (Ok tt, w') /\
    sched w' = sched w /\ scheduler.clock w' = scheduler.clock w /\
    log w' = log w /\ threads w' = threads w /\
    forall r, heap w' r =
      if bool_decide (r ∈ l)
      then self (snd (reset_statistics (mkEnv (heap w r) (scheduler.clock w) [])))
      else heap w r.
Proof.
  revert w. induction l as [|x l IH]; intros w.
  - exists w. split; [reflexivity|]. do 4 (split; [reflexivity|]). intros r.
    by rewrite bool_decide_eq_false_2 by apply not_elem_of_nil.
  - cbn [reset_each]. unfold bind at 1. rewrite on_activity_reset_statistics.
    match goal with |- context [reset_each l ?w1] =>
      destruct (IH w1) as (w' & Hl & Hs & Hc & Hlg & Hth & Hh) end.
    exists w'. split; [exact Hl|].
    split; [exact Hs|]. split; [exact Hc|]. split; [exact Hlg|]. split; [exact Hth|].
    intros r. rewrite Hh. cbn [heap scheduler.clock].
    destruct (decide (r = x)) as [->|Hne].
    + rewrite fn_lookup_insert, reset_statistics_twice.
      rewrite (bool_decide_eq_true_2 (x ∈ x :: l)) by (apply elem_of_cons; by left).
      by case_bool_decide.
    + rewrite fn_lookup_insert_ne by done.
      rewrite (bool_decide_ext (r ∈ x :: l) (r ∈ l)); [done|].
      rewrite elem_of_cons. tauto.
Qed.

(** X21.  [reset_all_statistics] sets the three counters of the scheduler
    to 0 and [start_time] to the present time, and is [reset_statistics] on
    every registered activity; activities that are not registered, the
    registry, [running], [_current_activity] and the clock are as before.
    It has no effect on the schedule: the candidates of the selection and
    the activity [_get_next_due_activity] returns are the same. *)
Theorem X21_reset_all_statistics (w : World) (start_time : option Z) :
  exists w',
    reset_all_statistics (w, start_time) = (Ok tt, (w', Some (scheduler.clock w))) /\
    scheduler.total_executions (sched w') = 0 /\
    scheduler.successful_executions (sched w') = 0 /\
    scheduler.failed_executions (sched w') = 0 /\
    _activities (sched w') = _activities (sched w) /\
    _activities_by_id (sched w') = _activities_by_id (sched w) /\
    running (sched w') = running (sched w) /\
    _current_activity (sched w') = _current_activity (sched w) /\
    scheduler.clock w' = scheduler.clock w /\
    (forall r, r ∈ _activities (sched w) ->
       heap w' r = self (snd (reset_statistics (mkEnv (heap w r) (scheduler.clock w) [])))) /\
    (forall r, r ∉ _activities (sched w) -> heap w' r = heap w r) /\
    candidates w' = candidates w /\
    fst (_get_next_due_activity w') = fst (_get_next_due_activity w).
Proof.
  unfold reset_all_statistics. cbv zeta.
  match goal with |- context [reset_each ?l ?w1] =>
    destruct (reset_each_eq l w1) as (w' & Hl & Hs & Hc & _ & _ & Hh) end.
  cbn [sched scheduler.clock heap with_sched _activities set_failed_executions
       set_successful_executions set_total_executions] in *.
  rewrite Hl. exists w'. split; [reflexivity|]. rewrite Hs, Hc.
  do 8 (split; [reflexivity|]). split_and!.
  - intros r Hr. by rewrite Hh, bool_decide_eq_true_2.
  - intros r Hr. by rewrite Hh, bool_decide_eq_false_2.
  - unfold candidates. rewrite Hs, Hc. cbn [sched _activities].
    apply filter_ext. intros r. rewrite Hh.
    case_bool_decide; [|done]. by rewrite reset_statistics_eq.
  - rewrite !next_due_fst. f_equal. f_equal.
    assert (Hcand : candidates w' = candidates w).
    { unfold candidates. rewrite Hs, Hc. cbn [sched _activities].
      apply filter_ext. intros r. rewrite Hh.
      case_bool_decide; [|done]. by rewrite reset_statistics_eq. }
    rewrite Hcand. apply sort_by_ext. intros r. unfold priority_of. rewrite Hh.
    case_bool_decide; [|done]. by rewrite reset_statistics_eq.
Qed.


Lemma X21_reset_all_statistics_witness :
  exists w',
    reset_all_statistics (snd (tick (fun _ => ok_phases) two_due), None)
    = (Ok tt, (w', Some (scheduler.clock (snd (tick (fun _ => ok_phases) two_due))))) /\
    scheduler.total_executions (sched w') = 0 /\
    activity.total_executions (heap w' 1%nat) = 0.
Proof.
  destruct (X21_reset_all_statistics (snd (tick (fun _ => ok_phases) two_due)) None)
    as (w' & H1 & H2 & _ & _ & _ & _ & _ & _ & _ & Hh & _).
  exists w'. split; [exact H1|]. split; [exact H2|].
  rewrite Hh; [reflexivity|]. rewrite list_elem_of_In. vm_compute. tauto.
Defined.
